(** * fb-ads-analytics: the funnel aggregation and upsert pipeline of server.js

    A shallow embedding of [src/server.js] and the properties of its
    aggregation, classification, persistence and orchestration code.

    - JavaScript strings are sequences of UTF-16 code units ([list N]).
    - JavaScript numbers are IEEE-754 binary64 values, taken from the
      Standard Library's executable specification ([SpecFloat], with
      [prec = 53] and [emax = 1024]).
    - The remote services (Graph API, Supabase) and the clock are an
      abstract world threaded through a state-and-exception monad.
    - Console output is not modelled. *)

From Stdlib Require Import ZArith NArith List String Ascii Bool Lia Permutation Sorted.
From Stdlib Require Import Floats.SpecFloat.
From stdpp Require Import base option list gmap.
Import ListNotations.

Local Open Scope Z_scope.

(* ===================================================================== *)
(** * JavaScript strings *)
(* ===================================================================== *)

(** A string is its sequence of UTF-16 code units. *)
Abbreviation jsstring := (list N).

(** A source literal (all literals of server.js are ASCII). *)
Definition js (s : string) : jsstring :=
  map N_of_ascii (list_ascii_of_string s).

Definition is_digit (c : N) : bool := ((48 <=? c) && (c <=? 57))%N.

(** WhiteSpace and LineTerminator code points of ECMAScript: the class
    [\s] of regular expressions and the characters stripped by
    [parseInt] and [parseFloat]. *)
Definition is_whitespace (c : N) : bool :=
  ((9 <=? c) && (c <=? 13) || (c =? 32) || (c =? 160) || (c =? 5760)
   || (8192 <=? c) && (c <=? 8202) || (c =? 8232) || (c =? 8233)
   || (c =? 8239) || (c =? 8287) || (c =? 12288) || (c =? 65279))%N.

(** Canonicalization of a code unit under the [i] flag (without [u]):
    upper-casing.  A code unit of 128 or more is never mapped to one
    below 128, so against an ASCII pattern character only its two ASCII
    cases match; [canonicalize] is therefore only applied below 128. *)
Definition canonicalize (c : N) : N :=
  if ((97 <=? c) && (c <=? 122))%N then (c - 32)%N else c.

Definition ci_eqb (p c : N) : bool :=
  ((c <? 128) && (canonicalize c =? canonicalize p))%N.

Fixpoint trim_start (s : jsstring) : jsstring :=
  match s with
  | c :: s' => if is_whitespace c then trim_start s' else s
  | [] => []
  end.

(** The longest prefix of characters satisfying [p], and the rest. *)
Fixpoint span (p : N -> bool) (s : jsstring) : jsstring * jsstring :=
  match s with
  | c :: s' =>
      if p c then let '(a, b) := span p s' in (c :: a, b) else ([], s)
  | [] => ([], [])
  end.

Fixpoint starts_with (p s : jsstring) : option jsstring :=
  match p, s with
  | [], _ => Some s
  | a :: p', c :: s' => if (a =? c)%N then starts_with p' s' else None
  | _ :: _, [] => None
  end.

(* ===================================================================== *)
(** * JavaScript numbers *)
(* ===================================================================== *)

Abbreviation number := spec_float.

Definition prec : Z := 53.
Definition emax : Z := 1024.

Definition NaN : number := S754_nan.
Definition zero : number := S754_zero false.

(** The Number value of a mathematical integer (round to nearest, ties
    to even). *)
Definition of_Z (n : Z) : number := binary_normalize prec emax n 0 false.

Definition add (x y : number) : number := SFadd prec emax x y.
Definition mul (x y : number) : number := SFmul prec emax x y.
Definition div (x y : number) : number := SFdiv prec emax x y.
(** [x > y] *)
Definition gt (x y : number) : bool := SFltb y x.
(** [x === y] on numbers *)
Definition strict_eq (x y : number) : bool := SFeqb x y.

(** The Number value of the decimal [m * 10^e10], [m > 0]. *)
Definition of_decimal (neg : bool) (m : positive) (e10 : Z) : number :=
  if 0 <=? e10
  then binary_normalize prec emax
         (cond_Zopp neg (Zpos m * 10 ^ e10)) 0 false
  else div (S754_finite neg m 0)
           (S754_finite false (Z.to_pos (10 ^ (- e10))) 0).

(* ===================================================================== *)
(** * JavaScript values read from JSON *)
(* ===================================================================== *)

(** The values a field of a Graph API record can hold: absent
    ([undefined]), [null], a boolean, a number or a string. *)
Inductive jsval :=
| JUndefined
| JNull
| JBool (b : bool)
| JNum (x : number)
| JStr (s : jsstring).

Definition ToBoolean (v : jsval) : bool :=
  match v with
  | JUndefined | JNull => false
  | JBool b => b
  | JNum (S754_zero _) | JNum S754_nan => false
  | JNum _ => true
  | JStr [] => false
  | JStr _ => true
  end.

(** [a || b] *)
Definition or_else (a b : jsval) : jsval := if ToBoolean a then a else b.

(** The engine.  Number::toString of a finite non-zero magnitude (the
    shortest round-tripping decimal, in fixed or exponent notation) is a
    built-in that is taken as a parameter. *)
Class Engine := { number_digits : positive -> Z -> jsstring }.

Section Conversions.
Context `{Engine}.

Definition NumberToString (x : number) : jsstring :=
  match x with
  | S754_nan => js "NaN"
  | S754_zero _ => js "0"
  | S754_infinity false => js "Infinity"
  | S754_infinity true => js "-Infinity"
  | S754_finite s m e => (if s then js "-" else []) ++ number_digits m e
  end.

Definition ToString (v : jsval) : jsstring :=
  match v with
  | JUndefined => js "undefined"
  | JNull => js "null"
  | JBool true => js "true"
  | JBool false => js "false"
  | JNum x => NumberToString x
  | JStr s => s
  end.

End Conversions.

(** ** parseFloat and parseInt *)

Definition digit_value (c : N) : Z := Z.of_N (c - 48).

Definition digits_value (ds : jsstring) : Z :=
  fold_left (fun acc c => 10 * acc + digit_value c) ds 0.

(** A leading [+] or [-]. *)
Definition take_sign (s : jsstring) : bool * jsstring :=
  match s with
  | 43%N :: r => (false, r)
  | 45%N :: r => (true, r)
  | _ => (false, s)
  end.

(** ExponentPart: [e] or [E], an optional sign, one or more digits;
    [0] when the text does not continue with a complete exponent. *)
Definition exponent_part (s : jsstring) : Z :=
  match s with
  | c :: r =>
      if ((c =? 101) || (c =? 69))%N then
        let '(neg, r') := take_sign r in
        match fst (span is_digit r') with
        | [] => 0
        | ds => cond_Zopp neg (digits_value ds)
        end
      else 0
  | [] => 0
  end.

(** [parseFloat] on a string: the longest prefix of the trimmed text
    that is a StrDecimalLiteral, or NaN when there is none. *)
Definition parseFloat_string (s : jsstring) : number :=
  let '(neg, s1) := take_sign (trim_start s) in
  match starts_with (js "Infinity") s1 with
  | Some _ => S754_infinity neg
  | None =>
      let '(ip, r1) := span is_digit s1 in
      let '(fp, r2) :=
        match r1 with
        | 46%N :: r => span is_digit r
        | _ => ([], r1)
        end in
      match ip ++ fp with
      | [] => NaN
      | ds =>
          match digits_value ds with
          | Zpos m =>
              of_decimal neg m (exponent_part r2 - Z.of_nat (length fp))
          | _ => S754_zero neg
          end
      end
  end.

Definition hex_value (c : N) : option Z :=
  if is_digit c then Some (Z.of_N (c - 48))
  else if ((97 <=? c) && (c <=? 102))%N then Some (Z.of_N (c - 87))
  else if ((65 <=? c) && (c <=? 70))%N then Some (Z.of_N (c - 55))
  else None.

Definition is_hex_digit (c : N) : bool :=
  match hex_value c with Some _ => true | None => false end.

Definition hex_digits_value (ds : jsstring) : Z :=
  fold_left (fun acc c => 16 * acc + default 0 (hex_value c)) ds 0.

(** The digits that [parseInt] reads without a radix argument, and their
    value: base 16 after a [0x] or [0X] prefix, base 10 otherwise. *)
Definition radix_digits (s1 : jsstring) : jsstring * Z :=
  match s1 with
  | 48%N :: x :: r =>
      if ((x =? 120) || (x =? 88))%N
      then let ds := fst (span is_hex_digit r) in (ds, hex_digits_value ds)
      else let ds := fst (span is_digit s1) in (ds, digits_value ds)
  | _ => let ds := fst (span is_digit s1) in (ds, digits_value ds)
  end.

(** [parseInt] on a string: NaN when no digit follows the optional
    sign and prefix. *)
Definition parseInt_string (s : jsstring) : number :=
  let '(neg, s1) := take_sign (trim_start s) in
  let '(ds, mathInt) := radix_digits s1 in
  match ds with
  | [] => NaN
  | _ =>
      match mathInt with
      | Z0 => S754_zero neg
      | _ => of_Z (cond_Zopp neg mathInt)
      end
  end.

Section Parsing.
Context `{Engine}.

Definition parseFloat (v : jsval) : number := parseFloat_string (ToString v).
Definition parseInt (v : jsval) : number := parseInt_string (ToString v).

End Parsing.

(* ===================================================================== *)
(** * Regular expressions: the fragment used by server.js *)
(* ===================================================================== *)

Inductive atom :=
| Chr (c : N)      (** a pattern character, compared under the [i] flag *)
| Space            (** [\s] *)
| Digit.           (** [\d] *)

Inductive regex :=
| Atom (a : atom)
| Seq (r1 r2 : regex)
| Star (a : atom)          (** greedy [a*] *)
| Plus (a : atom)          (** greedy [a+] *)
| Group (r : regex).       (** the capturing group *)

Definition atom_matches (a : atom) (c : N) : bool :=
  match a with
  | Chr p => ci_eqb p c
  | Space => is_whitespace c
  | Digit => is_digit c
  end.

(** What a match records: the text captured by the group, or [None]
    ([undefined]) while the group has not taken part. *)
Definition captures := option jsstring.

Section Matcher.
Context {R : Type}.

(** The matcher is written with continuations: [k] matches the rest of
    the pattern on the rest of the text.  Greedy repetition takes one
    more character first and gives it back when the continuation
    fails. *)
Fixpoint star (a : atom) (k : jsstring -> option R) (s : jsstring)
  : option R :=
  match s with
  | c :: s' =>
      if atom_matches a c then
        match star a k s' with
        | Some r => Some r
        | None => k s
        end
      else k s
  | [] => k []
  end.

Fixpoint run (r : regex) (k : jsstring -> captures -> option R)
  (s : jsstring) (cap : captures) : option R :=
  match r with
  | Atom a =>
      match s with
      | c :: s' => if atom_matches a c then k s' cap else None
      | [] => None
      end
  | Seq r1 r2 => run r1 (fun s' cap' => run r2 k s' cap') s cap
  | Star a => star a (fun s' => k s' cap) s
  | Plus a =>
      match s with
      | c :: s' =>
          if atom_matches a c then star a (fun s' => k s' cap) s' else None
      | [] => None
      end
  | Group r1 =>
      run r1 (fun s' _ => k s' (Some (firstn (length s - length s') s))) s cap
  end.

End Matcher.

(** [str.match(re)] for a regular expression without the [g] flag: the
    match at the leftmost position where one exists; the result carries
    the capture.  [None] is JavaScript's [null]. *)
Fixpoint String_match (re : regex) (s : jsstring) : option captures :=
  match run re (fun _ cap => Some cap) s None with
  | Some cap => Some cap
  | None =>
      match s with
      | _ :: s' => String_match re s'
      | [] => None
      end
  end.

Definition chr (a : ascii) : regex := Atom (Chr (N_of_ascii a)).

(** [/Funnel\s*(\d+)/i] (line 109) *)
Definition funnel_regex : regex :=
  Seq (chr "F") (Seq (chr "u") (Seq (chr "n") (Seq (chr "n") (Seq (chr "e")
    (Seq (chr "l") (Seq (Star Space) (Group (Plus Digit)))))))).

(** Lines 109-110: [funnelMatch ? funnelMatch[1] : 'unknown'].  The group
    takes part in every match of [funnel_regex] (lemma
    [funnel_regex_captures]), so the [undefined] capture never arises. *)
Definition funnelId (campaignName : jsstring) : jsstring :=
  match String_match funnel_regex campaignName with
  | Some (Some digits) => digits
  | Some None => js "undefined"
  | None => js "unknown"
  end.

(** Line 111: [`Funnel #${funnelId}`] *)
Definition funnelName (funnelId : jsstring) : jsstring :=
  js "Funnel #" ++ funnelId.

(* ===================================================================== *)
(** * Records of the Graph API and of the funnel_analytics table *)
(* ===================================================================== *)

(** An element of [/me/adaccounts]. *)
Module Account.
Record t := { id : jsval; name : jsval; account_status : jsval }.
End Account.

(** An element of [/<account>/campaigns]. *)
Module Campaign.
Record t := { id : jsval; name : jsval }.
End Campaign.

(** An element of [/<account>/insights] at campaign level. *)
Module Insight.
Record t := {
  campaign_id : jsval;
  campaign_name : jsval;
  spend : jsval;
  impressions : jsval;
  reach : jsval;
  clicks : jsval
}.
End Insight.

(** The campaign-level entry pushed on lines 136-142. *)
Module Detail.
Record t := {
  campaign_id : jsval;
  campaign_name : jsstring;
  spend : number;
  impressions : number;
  clicks : number
}.
End Detail.

(** The per-funnel object of lines 115-126; [link_ctr], [campaigns] and
    [is_current_week] are properties that may be absent. *)
Module Funnel.
Record t := {
  funnel_id : jsstring;
  funnel_name : jsstring;
  start_date : jsstring;
  end_date : jsstring;
  amount_spent : number;
  impressions : number;
  reach : number;
  ads_link_clicks : number;
  frequency : number;
  link_ctr : option number;
  campaigns : option (list Detail.t);
  is_current_week : option bool
}.

Definition set_totals (f : t) (a i r c : number) (cs : option (list Detail.t)) : t :=
  {| funnel_id := funnel_id f; funnel_name := funnel_name f;
     start_date := start_date f; end_date := end_date f;
     amount_spent := a; impressions := i; reach := r; ads_link_clicks := c;
     frequency := frequency f; link_ctr := link_ctr f;
     campaigns := cs; is_current_week := is_current_week f |}.

Definition set_frequency (f : t) (x : number) : t :=
  {| funnel_id := funnel_id f; funnel_name := funnel_name f;
     start_date := start_date f; end_date := end_date f;
     amount_spent := amount_spent f; impressions := impressions f;
     reach := reach f; ads_link_clicks := ads_link_clicks f;
     frequency := x; link_ctr := link_ctr f;
     campaigns := campaigns f; is_current_week := is_current_week f |}.

Definition set_link_ctr (f : t) (x : option number) : t :=
  {| funnel_id := funnel_id f; funnel_name := funnel_name f;
     start_date := start_date f; end_date := end_date f;
     amount_spent := amount_spent f; impressions := impressions f;
     reach := reach f; ads_link_clicks := ads_link_clicks f;
     frequency := frequency f; link_ctr := x;
     campaigns := campaigns f; is_current_week := is_current_week f |}.

Definition delete_campaigns (f : t) : t :=
  set_totals f (amount_spent f) (impressions f) (reach f) (ads_link_clicks f) None.

Definition set_is_current_week (f : t) (b : bool) : t :=
  {| funnel_id := funnel_id f; funnel_name := funnel_name f;
     start_date := start_date f; end_date := end_date f;
     amount_spent := amount_spent f; impressions := impressions f;
     reach := reach f; ads_link_clicks := ads_link_clicks f;
     frequency := frequency f; link_ctr := link_ctr f;
     campaigns := campaigns f; is_current_week := Some b |}.

(** The FunnelKey: the [onConflict] columns of line 184. *)
Definition key (f : t) : jsstring * jsstring * jsstring :=
  (start_date f, end_date f, funnel_id f).
End Funnel.

(* ===================================================================== *)
(** * Plain objects used as maps *)
(* ===================================================================== *)

(** The property names every plain object inherits from
    [Object.prototype]. *)
Definition inherited_names : list jsstring :=
  map js ["constructor"; "__defineGetter__"; "__defineSetter__";
          "hasOwnProperty"; "__lookupGetter__"; "__lookupSetter__";
          "isPrototypeOf"; "propertyIsEnumerable"; "toString"; "valueOf";
          "__proto__"; "toLocaleString"]%string.

(** What reading a property yields: a JSON value, or an object or
    function inherited from the prototype (truthy, and not a string). *)
Inductive slot :=
| Value (v : jsval)
| Inherited.

(** [campaignMap] (line 97): the own properties, and whether the object
    still has [Object.prototype] as its prototype.  Assigning [null] to
    [__proto__] removes the prototype; assigning another JSON scalar to
    it does nothing. *)
Record campaign_map := {
  own : gmap jsstring jsval;
  has_prototype : bool
}.

Definition empty_map : campaign_map := {| own := ∅; has_prototype := true |}.

Definition map_set (m : campaign_map) (k : jsstring) (v : jsval) : campaign_map :=
  if bool_decide (k = js "__proto__") && has_prototype m then
    match v with
    | JNull => {| own := own m; has_prototype := false |}
    | _ => m
    end
  else {| own := <[k := v]> (own m); has_prototype := has_prototype m |}.

Definition map_get (m : campaign_map) (k : jsstring) : slot :=
  match own m !! k with
  | Some v => Value v
  | None =>
      if has_prototype m && bool_decide (k ∈ inherited_names)
      then Inherited else Value JUndefined
  end.

(** [funnelData] (line 104) keeps its properties in insertion order; its
    keys are digit strings or ["unknown"], never an inherited name. *)
Definition funnel_data := list (jsstring * Funnel.t).

Fixpoint fd_get (fd : funnel_data) (k : jsstring) : option Funnel.t :=
  match fd with
  | (k', f) :: fd' => if bool_decide (k' = k) then Some f else fd_get fd' k
  | [] => None
  end.

Fixpoint fd_alter (g : Funnel.t -> Funnel.t) (k : jsstring) (fd : funnel_data)
  : funnel_data :=
  match fd with
  | (k', f) :: fd' =>
      if bool_decide (k' = k) then (k', g f) :: fd'
      else (k', f) :: fd_alter g k fd'
  | [] => []
  end.

(** A property key that is an array index: the canonical decimal form of
    an integer below [2^32 - 1]. *)
Definition array_index (k : jsstring) : option Z :=
  match k with
  | [] => None
  | c :: r =>
      if forallb is_digit k
         && (negb (c =? 48)%N || bool_decide (r = []))
         && (digits_value k <? 4294967295)
      then Some (digits_value k) else None
  end.

Fixpoint insert_sorted {A} (i : Z) (x : A) (l : list (Z * A)) : list (Z * A) :=
  match l with
  | (j, y) :: l' =>
      if i <? j then (i, x) :: l else (j, y) :: insert_sorted i x l'
  | [] => [(i, x)]
  end.

(** The array-index properties, in ascending numeric order. *)
Definition indexed_properties (fd : funnel_data) : list (Z * Funnel.t) :=
  fold_left (fun acc kf =>
               match array_index (fst kf) with
               | Some i => insert_sorted i (snd kf) acc
               | None => acc
               end) fd [].

(** The other properties, in insertion order. *)
Definition named_properties (fd : funnel_data) : funnel_data :=
  List.filter (fun kf => match array_index (fst kf) with
                         | Some _ => false
                         | None => true
                         end) fd.

(** [Object.values] and [for ... in]: array-index keys first, in
    ascending numeric order, then the other keys in insertion order. *)
Definition Object_values (fd : funnel_data) : list Funnel.t :=
  map snd (indexed_properties fd) ++ map snd (named_properties fd).

(* ===================================================================== *)
(** * The aggregator (lines 95-159), as a pure function *)
(* ===================================================================== *)

(** What a [catch] clause receives. *)
Inductive exn :=
| TypeError        (** a property read on [undefined], a call of a non-function *)
| RequestFailed.   (** a rejected request: network error or error status *)

Inductive outcome (A : Type) :=
| Returned (a : A)
| Thrown (e : exn).
Arguments Returned {A} a.
Arguments Thrown {A} e.

Section Aggregator.
Context `{Engine}.

(** Lines 99-101. *)
Definition build_campaign_map (campaigns : list Campaign.t) : campaign_map :=
  fold_left (fun m c => map_set m (ToString (Campaign.id c)) (Campaign.name c))
            campaigns empty_map.

(** Line 108: [insight.campaign_name || campaignMap[insight.campaign_id]
    || 'Unknown Campaign']. *)
Definition campaignName (campaignMap : campaign_map) (insight : Insight.t) : slot :=
  if ToBoolean (Insight.campaign_name insight)
  then Value (Insight.campaign_name insight)
  else
    match map_get campaignMap (ToString (Insight.campaign_id insight)) with
    | Inherited => Inherited
    | Value v => Value (or_else v (JStr (js "Unknown Campaign")))
    end.

(** Lines 115-126. *)
Definition new_funnel (funnelId startDateStr endDate : jsstring) : Funnel.t :=
  {| Funnel.funnel_id := funnelId;
     Funnel.funnel_name := funnelName funnelId;
     Funnel.start_date := startDateStr;
     Funnel.end_date := endDate;
     Funnel.amount_spent := zero;
     Funnel.impressions := zero;
     Funnel.reach := zero;
     Funnel.ads_link_clicks := zero;
     Funnel.frequency := zero;
     Funnel.link_ctr := None;
     Funnel.campaigns := Some [];
     Funnel.is_current_week := None |}.

(** Lines 130-142: the four [+=] and the [push]. *)
Definition add_insight (name : jsstring) (insight : Insight.t) (f : Funnel.t)
  : Funnel.t :=
  let zero_ := JNum zero in
  Funnel.set_totals f
    (add (Funnel.amount_spent f) (parseFloat (or_else (Insight.spend insight) zero_)))
    (add (Funnel.impressions f) (parseInt (or_else (Insight.impressions insight) zero_)))
    (add (Funnel.reach f) (parseInt (or_else (Insight.reach insight) zero_)))
    (add (Funnel.ads_link_clicks f) (parseInt (or_else (Insight.clicks insight) zero_)))
    (option_map
       (fun cs => cs ++
          [ {| Detail.campaign_id := Insight.campaign_id insight;
               Detail.campaign_name := name;
               Detail.spend := parseFloat (or_else (Insight.spend insight) zero_);
               Detail.impressions := parseInt (or_else (Insight.impressions insight) zero_);
               Detail.clicks := parseInt (or_else (Insight.clicks insight) zero_) |} ])
       (Funnel.campaigns f)).

(** One iteration of the loop of lines 106-143.  [campaignName.match]
    throws a TypeError when the resolved name is not a string. *)
Definition fold_insight (campaignMap : campaign_map)
  (startDateStr endDate : jsstring) (funnelData : funnel_data)
  (insight : Insight.t) : outcome funnel_data :=
  match campaignName campaignMap insight with
  | Value (JStr name) =>
      let fid := funnelId name in
      let funnelData' :=
        match fd_get funnelData fid with
        | Some _ => funnelData
        | None => funnelData ++ [(fid, new_funnel fid startDateStr endDate)]
        end in
      Returned (fd_alter (add_insight name insight) fid funnelData')
  | _ => Thrown TypeError
  end.

Fixpoint fold_insights (campaignMap : campaign_map)
  (startDateStr endDate : jsstring) (funnelData : funnel_data)
  (campaignData : list Insight.t) : outcome funnel_data :=
  match campaignData with
  | [] => Returned funnelData
  | insight :: rest =>
      match fold_insight campaignMap startDateStr endDate funnelData insight with
      | Returned funnelData' =>
          fold_insights campaignMap startDateStr endDate funnelData' rest
      | Thrown e => Thrown e
      end
  end.

(** Lines 147-156: the body of the [for ... in] loop. *)
Definition finalize (funnel : Funnel.t) : Funnel.t :=
  let funnel :=
    if gt (Funnel.reach funnel) zero
    then Funnel.set_frequency funnel
           (div (Funnel.impressions funnel) (Funnel.reach funnel))
    else funnel in
  let funnel :=
    if gt (Funnel.impressions funnel) zero
    then Funnel.set_link_ctr funnel
           (Some (mul (div (Funnel.ads_link_clicks funnel)
                           (Funnel.impressions funnel)) (of_Z 100)))
    else funnel in
  Funnel.delete_campaigns funnel.

(** Lines 95-159: from the two response arrays to the returned array. *)
Definition aggregate (campaigns : list Campaign.t) (campaignData : list Insight.t)
  (startDateStr endDate : jsstring) : outcome (list Funnel.t) :=
  match fold_insights (build_campaign_map campaigns) startDateStr endDate []
          campaignData with
  | Returned funnelData => Returned (map finalize (Object_values funnelData))
  | Thrown e => Thrown e
  end.

End Aggregator.

(* ===================================================================== *)
(** * The store *)
(* ===================================================================== *)

(** The rows of the [funnel_analytics] table. *)
Definition table := list Funnel.t.

(** Modelled from the spec: the store's upsert, which runs in the
    database behind the Supabase client and is not part of the
    repository.  It "inserts a new row or replaces an existing row
    sharing the same uniqueness key", the key being the FunnelKey
    (start_date, end_date, funnel_id); a replacement overwrites all
    fields. *)
Fixpoint upsert (row : Funnel.t) (rows : table) : table :=
  match rows with
  | r :: rows' =>
      if bool_decide (Funnel.key r = Funnel.key row) then row :: rows'
      else r :: upsert row rows'
  | [] => [row]
  end.

(** How one upsert request can end. *)
Inductive write_result :=
| Written          (** [error] is null: the row is in the table *)
| ErrorReturned    (** the client returns [{ error }]: nothing is written *)
| WriteThrown.     (** the awaited call rejects *)

(* ===================================================================== *)
(** * The world, and the monad of the asynchronous functions *)
(* ===================================================================== *)

(** An awaited [axios.get]: rejected, or resolved with a body whose
    [data] member is an array or is missing. *)
Inductive axios_result (A : Type) :=
| Rejected
| Resolved (data : option (list A)).
Arguments Rejected {A}.
Arguments Resolved {A} data.

(** The remote services and the clock.  Each request may change the
    world; [window] reads the clock and renders the two dates of lines
    58-62 ([startDateStr], [endDate]). *)
Class Services := {
  World : Type;
  window : World -> jsstring * jsstring;
  get_adaccounts : World -> axios_result Account.t * World;
  get_campaigns : jsstring -> World -> axios_result Campaign.t * World;
  get_insights : jsstring -> jsstring * jsstring -> World
                 -> axios_result Insight.t * World;
  send_upsert : Funnel.t -> World -> write_result * World
}.

Section Pipeline.
Context `{Engine} `{Services}.

Record state := { world : World; rows : table }.

Definition M (A : Type) : Type := state -> outcome A * state.

Definition ret {A} (a : A) : M A := fun st => (Returned a, st).
Definition throw {A} (e : exn) : M A := fun st => (Thrown e, st).
Definition bind {A B} (m : M A) (k : A -> M B) : M B :=
  fun st =>
    match m st with
    | (Returned a, st') => k a st'
    | (Thrown e, st') => (Thrown e, st')
    end.
Definition try_catch {A} (body : M A) (handler : exn -> M A) : M A :=
  fun st =>
    match body st with
    | (Returned a, st') => (Returned a, st')
    | (Thrown e, st') => handler e st'
    end.
Definition lift {A} (o : outcome A) : M A := fun st => (o, st).

Definition on_world {A} (f : World -> A * World) : M A :=
  fun st =>
    let '(a, w) := f (world st) in
    (Returned a, {| world := w; rows := rows st |}).

End Pipeline.

Declare Scope js_scope.
Delimit Scope js_scope with js.
Notation "x <- m ;; k" := (bind m (fun x => k))
  (at level 100, m at next level, right associativity) : js_scope.
Notation "m ;;; k" := (bind m (fun _ => k))
  (at level 100, right associativity) : js_scope.

Section Server.
Context `{Engine} `{Services}.
Local Open Scope js_scope.

(** [await axios.get(...)]: a rejection is thrown. *)
Definition await {A} (request : World -> axios_result A * World)
  : M (option (list A)) :=
  r <- on_world request ;;
  match r with
  | Rejected => throw RequestFailed
  | Resolved data => ret data
  end.

(** [response.data.data.length] and the later uses of the array: a
    TypeError when the member is missing. *)
Definition the_array {A} (data : option (list A)) : M (list A) :=
  match data with
  | Some l => ret l
  | None => throw TypeError
  end.

(** Lines 22-50. *)
Definition getAdAccounts : M (list Account.t) :=
  try_catch
    (data <- await get_adaccounts ;;
     match data with
     | Some accounts => ret accounts
     | None => ret []
     end)
    (fun _ => ret []).

(** Lines 53-164. *)
Definition fetchFacebookAdData (adAccountId : jsstring) : M (list Funnel.t) :=
  try_catch
    (fun st =>
       let '(startDateStr, endDate) := window (world st) in
       (campaignsData <- await (get_campaigns adAccountId) ;;
        campaigns <- the_array campaignsData ;;
        insightsData <- await (get_insights adAccountId (startDateStr, endDate)) ;;
        campaignData <- the_array insightsData ;;
        lift (aggregate campaigns campaignData startDateStr endDate)) st)
    (fun _ => ret []).

(** Lines 176-193: one iteration of the write loop. *)
Definition save_one (funnelData : Funnel.t) : M unit :=
  let funnelData := Funnel.set_is_current_week funnelData true in
  r <- on_world (send_upsert funnelData) ;;
  match r with
  | Written =>
      fun st => (Returned tt,
                 {| world := world st; rows := upsert funnelData (rows st) |})
  | ErrorReturned => ret tt
  | WriteThrown => throw RequestFailed
  end.

Fixpoint save_each (funnelDataArray : list Funnel.t) : M unit :=
  match funnelDataArray with
  | [] => ret tt
  | funnelData :: rest => save_one funnelData ;;; save_each rest
  end.

(** Lines 167-199. *)
Definition saveFunnelData (funnelDataArray : list Funnel.t) : M unit :=
  match funnelDataArray with
  | [] => ret tt
  | _ => try_catch (save_each funnelDataArray) (fun _ => ret tt)
  end.

(** [s.replace(pattern, replacement)] with a string pattern: the first
    occurrence only. *)
Fixpoint replace_first (pattern replacement s : jsstring) : jsstring :=
  match starts_with pattern s with
  | Some rest => replacement ++ rest
  | None =>
      match s with
      | c :: s' => c :: replace_first pattern replacement s'
      | [] => []
      end
  end.

(** [account.account_status !== 1] *)
Definition is_inactive (account : Account.t) : bool :=
  match Account.account_status account with
  | JNum x => negb (strict_eq x (of_Z 1))
  | _ => true
  end.

(** Lines 213-228: the body of the loop over the accounts.
    [account.id.replace] throws a TypeError unless the id is a string. *)
Definition process_account (account : Account.t) : M unit :=
  if is_inactive account then ret tt
  else
    match Account.id account with
    | JStr id =>
        let accountId := replace_first (js "act_") [] id in
        funnelData <- fetchFacebookAdData (js "act_" ++ accountId) ;;
        saveFunnelData funnelData
    | _ => throw TypeError
    end.

Fixpoint process_accounts (adAccounts : list Account.t) : M unit :=
  match adAccounts with
  | [] => ret tt
  | account :: rest => process_account account ;;; process_accounts rest
  end.

(** Lines 202-234. *)
Definition processFacebookData : M unit :=
  try_catch
    (adAccounts <- getAdAccounts ;;
     match adAccounts with
     | [] => ret tt
     | _ => process_accounts adAccounts
     end)
    (fun _ => ret tt).

(** ** The HTTP endpoints *)

Inductive body :=
| SyncCompleted
    (** [{ success: true, message: 'Facebook data sync completed' }] *)
| Connected (adAccounts : list Account.t)
    (** [{ success: true, message: ..., adAccounts }] *)
| Failure (error : exn).
    (** [{ success: false, error: error.message }] *)

Record response := { status : Z; payload : body }.

Definition success (r : response) : bool :=
  match payload r with
  | SyncCompleted | Connected _ => true
  | Failure _ => false
  end.

(** [res.json(b)] answers with the default status 200. *)
Definition res_json (b : body) : M response :=
  ret {| status := 200; payload := b |}.
(** [res.status(c).json(b)] *)
Definition res_status_json (c : Z) (b : body) : M response :=
  ret {| status := c; payload := b |}.

(** Lines 243-251: [POST /sync-facebook-data]. *)
Definition sync_facebook_data : M response :=
  try_catch
    (processFacebookData ;;; res_json SyncCompleted)
    (fun error => res_status_json 500 (Failure error)).

(** Lines 254-268: [GET /test-facebook-connection]. *)
Definition test_facebook_connection : M response :=
  try_catch
    (adAccounts <- getAdAccounts ;; res_json (Connected adAccounts))
    (fun error => res_status_json 500 (Failure error)).

End Server.

(* ===================================================================== *)
(** * Definitions used to state the properties *)
(* ===================================================================== *)

(** ** Classification, in the words of the specification *)

(** The ASCII lower case of a code unit. *)
Definition ascii_lower (c : N) : N :=
  if ((65 <=? c) && (c <=? 90))%N then (c + 32)%N else c.

(** Follows the specification's words: [s] begins with "the token
    Funnel" in any letter case, "followed by optional whitespace and one
    or more digits"; [digits] is the whole run of digits. *)
Definition funnel_token_at (s digits : jsstring) : Prop :=
  exists token spaces rest,
    s = token ++ spaces ++ digits ++ rest
    /\ map ascii_lower token = js "funnel"
    /\ forallb is_whitespace spaces = true
    /\ digits <> []
    /\ forallb is_digit digits = true
    /\ (forall c rest', rest = c :: rest' -> is_digit c = false).

(** The same test as a function: the digits matched at the head of [s]. *)
Definition match_here (s : jsstring) : option jsstring :=
  match s with
  | c1 :: c2 :: c3 :: c4 :: c5 :: c6 :: rest =>
      if ci_eqb 70 c1 && ci_eqb 117 c2 && ci_eqb 110 c3
         && ci_eqb 110 c4 && ci_eqb 101 c5 && ci_eqb 108 c6
      then
        match fst (span is_digit (snd (span is_whitespace rest))) with
        | [] => None
        | ds => Some ds
        end
      else None
  | _ => None
  end.

(** The digits of the leftmost match. *)
Fixpoint scan (s : jsstring) : option jsstring :=
  match match_here s with
  | Some ds => Some ds
  | None => match s with _ :: s' => scan s' | [] => None end
  end.

(** ** Exact totals *)

(** The canonical form of an integer of at most 53 bits. *)
Definition canonical_int (p : positive) : number :=
  let d := Zpos (digits2_pos p) in
  S754_finite false (Z.to_pos (Zpos p * 2 ^ (53 - d))) (d - 53).

(** The value of a field that is absent (or otherwise falsy) or a
    string of decimal digits. *)
Definition natural_value (v : jsval) : option Z :=
  if ToBoolean v then
    match v with
    | JStr ds => if forallb is_digit ds then Some (digits_value ds) else None
    | _ => None
    end
  else Some 0.

(** The sum over the integers of the values of one field. *)
Definition exact_total (field : Insight.t -> jsval) (data : list Insight.t) : Z :=
  fold_right (fun i acc => default 0 (natural_value (field i)) + acc) 0 data.

(** The sum the loop computes: binary64 additions, in input order, from 0. *)
Definition running_total (g : Insight.t -> number) (data : list Insight.t) : number :=
  fold_left (fun acc i => add acc (g i)) data zero.

Section GroupDefs.
Context `{Engine}.

(** The name line 108 resolves, when it is a string. *)
Definition resolved_name (campaignMap : campaign_map) (insight : Insight.t)
  : jsstring :=
  match campaignName campaignMap insight with
  | Value (JStr name) => name
  | _ => []
  end.

(** Every metric of the record is absent or a string of digits. *)
Definition natural_record (insight : Insight.t) : Prop :=
  is_Some (natural_value (Insight.spend insight))
  /\ is_Some (natural_value (Insight.impressions insight))
  /\ is_Some (natural_value (Insight.reach insight))
  /\ is_Some (natural_value (Insight.clicks insight)).

End GroupDefs.

(** What the loop of lines 106-143 maintains for every property of
    [funnelData]. *)
Definition fresh (startDateStr endDate : jsstring) (kf : jsstring * Funnel.t) : Prop :=
  Funnel.funnel_id (snd kf) = fst kf
  /\ Funnel.start_date (snd kf) = startDateStr
  /\ Funnel.end_date (snd kf) = endDate
  /\ Funnel.frequency (snd kf) = zero
  /\ Funnel.link_ctr (snd kf) = None.

Section Contributions.
Context `{Engine}.

(** What one record adds to each total (lines 130-133). *)
Definition spend_of (i : Insight.t) : number :=
  parseFloat (or_else (Insight.spend i) (JNum zero)).
Definition impressions_of (i : Insight.t) : number :=
  parseInt (or_else (Insight.impressions i) (JNum zero)).
Definition reach_of (i : Insight.t) : number :=
  parseInt (or_else (Insight.reach i) (JNum zero)).
Definition clicks_of (i : Insight.t) : number :=
  parseInt (or_else (Insight.clicks i) (JNum zero)).

(** The records that fold into the accumulator of [fid], in input order. *)
Definition group (campaignMap : campaign_map) (fid : jsstring)
  (data : list Insight.t) : list Insight.t :=
  List.filter
    (fun i => bool_decide (funnelId (resolved_name campaignMap i) = fid)) data.

(** The totals of a [funnelData] property are the running sums over the
    records of its group among the records folded so far. *)
Definition sums_of (campaignMap : campaign_map) (folded : list Insight.t)
  (kf : jsstring * Funnel.t) : Prop :=
  let records := group campaignMap (fst kf) folded in
  records <> []
  /\ Funnel.amount_spent (snd kf) = running_total spend_of records
  /\ Funnel.impressions (snd kf) = running_total impressions_of records
  /\ Funnel.reach (snd kf) = running_total reach_of records
  /\ Funnel.ads_link_clicks (snd kf) = running_total clicks_of records.

End Contributions.

(** ** The table and the orchestration *)

(** The uniqueness constraint of the table on the FunnelKey. *)
Definition unique_keys (t : table) : Prop := NoDup (map Funnel.key t).

(** The rows stored under a key, and the other rows. *)
Definition rows_with (k : jsstring * jsstring * jsstring) (t : table) : table :=
  List.filter (fun r => bool_decide (Funnel.key r = k)) t.

Definition rows_without (k : jsstring * jsstring * jsstring) (t : table) : table :=
  List.filter (fun r => negb (bool_decide (Funnel.key r = k))) t.

Section PipelineDefs.
Context `{Engine} `{Services}.

(** The account id sent to the Graph API (lines 220 and 224). *)
Definition request_id (id : jsstring) : jsstring :=
  js "act_" ++ replace_first (js "act_") [] id.

(** The fetch of an account meets a transport or API error: one of its
    two requests is rejected, or answers without a [data] array. *)
Definition fetch_error (adAccountId : jsstring) (st : state) : Prop :=
  match get_campaigns adAccountId (world st) with
  | (Resolved (Some _), w1) =>
      match fst (get_insights adAccountId (window (world st)) w1) with
      | Resolved (Some _) => False
      | _ => True
      end
  | _ => True
  end.

(** What [fetchFacebookAdData] returns and the state it leaves, by cases
    on the two replies. *)
Definition fetch_result (adAccountId : jsstring) (st : state)
  : list Funnel.t * state :=
  match get_campaigns adAccountId (world st) with
  | (Resolved (Some campaigns), w1) =>
      match get_insights adAccountId (window (world st)) w1 with
      | (Resolved (Some campaignData), w2) =>
          (match aggregate campaigns campaignData
                   (fst (window (world st))) (snd (window (world st))) with
           | Returned funnels => funnels
           | Thrown _ => []
           end, {| world := w2; rows := rows st |})
      | (_, w2) => ([], {| world := w2; rows := rows st |})
      end
  | (_, w1) => ([], {| world := w1; rows := rows st |})
  end.

(** The accounts that [getAdAccounts] passes on. *)
Definition listed_accounts (reply : axios_result Account.t) : list Account.t :=
  match reply with
  | Resolved (Some accounts) => accounts
  | _ => []
  end.

End PipelineDefs.

(** ** Names, keys and rows *)

Section NameDefs.
Context `{Engine}.

(** The property key under which line 100 stores a campaign, and the key
    line 108 reads for an insight. *)
Definition campaign_key (c : Campaign.t) : jsstring := ToString (Campaign.id c).
Definition insight_key (i : Insight.t) : jsstring := ToString (Insight.campaign_id i).

(** Line 108 resolves the record to a string. *)
Definition has_name (campaignMap : campaign_map) (i : Insight.t) : Prop :=
  exists name, campaignName campaignMap i = Value (JStr name).

End NameDefs.

(** The array index of the funnel id of an accumulator, when the id is
    one: such keys come first in [Object.values]. *)
Definition index_of (f : Funnel.t) : option Z := array_index (Funnel.funnel_id f).

(** What lines 115-126 set besides the totals and the dates. *)
Definition labelled (kf : jsstring * Funnel.t) : Prop :=
  Funnel.funnel_name (snd kf) = funnelName (fst kf)
  /\ Funnel.is_current_week (snd kf) = None.

(** A row as a cycle writes it: stamped, without the campaigns array,
    and named after its funnel id. *)
Definition written_row (r : Funnel.t) : Prop :=
  Funnel.is_current_week r = Some true
  /\ Funnel.campaigns r = None
  /\ Funnel.funnel_name r = funnelName (Funnel.funnel_id r).

(** * Concrete runs *)
Module Scenario.

(** An engine whose printing of non-zero numbers is never exercised:
    every field below is a string or absent. *)
Definition engine : Engine := {| number_digits := fun _ _ => [] |}.

(** A world that answers every request of one kind with the same reply. *)
Record script := {
  accounts_reply : axios_result Account.t;
  campaigns_reply : axios_result Campaign.t;
  insights_reply : axios_result Insight.t;
  upsert_reply : write_result
}.

Definition services : Services := {|
  World := script;
  window := fun _ => (js "2024-03-01", js "2024-03-08");
  get_adaccounts := fun w => (accounts_reply w, w);
  get_campaigns := fun _ w => (campaigns_reply w, w);
  get_insights := fun _ _ w => (insights_reply w, w);
  send_upsert := fun _ w => (upsert_reply w, w)
|}.

(** The Graph API returns the metrics as strings. *)
Definition insight (id name spend impressions reach clicks : string) : Insight.t :=
  {| Insight.campaign_id := JStr (js id);
     Insight.campaign_name := JStr (js name);
     Insight.spend := JStr (js spend);
     Insight.impressions := JStr (js impressions);
     Insight.reach := JStr (js reach);
     Insight.clicks := JStr (js clicks) |}.

(** The two campaigns of the end-to-end scenario of the specification. *)
Definition top : Insight.t := insight "11" "Funnel 1 - Top" "100" "1000" "500" "20".
Definition mid : Insight.t := insight "12" "Funnel 1 - Mid" "50" "500" "250" "10".

(** A record whose spend is not numeric. *)
Definition garbled : Insight.t := insight "13" "Funnel 1 - Low" "abc" "10" "5" "1".

(** A record without impressions, reach and clicks. *)
Definition unseen : Insight.t :=
  {| Insight.campaign_id := JStr (js "14");
     Insight.campaign_name := JStr (js "Funnel 2");
     Insight.spend := JStr (js "5");
     Insight.impressions := JUndefined;
     Insight.reach := JUndefined;
     Insight.clicks := JUndefined |}.

(** Three records of one funnel with decimal spends. *)
Definition dime : Insight.t := insight "21" "Funnel 4 a" "0.1" "1" "1" "0".
Definition fifth : Insight.t := insight "22" "Funnel 4 b" "0.2" "1" "1" "0".
Definition third : Insight.t := insight "23" "Funnel 4 c" "0.3" "1" "1" "0".

(** Two names whose digits differ in leading zeros only. *)
Definition padded : Insight.t := insight "31" "Funnel 007" "1" "1" "1" "1".
Definition plain : Insight.t := insight "32" "Funnel 7" "1" "1" "1" "1".

Definition listed : Campaign.t :=
  {| Campaign.id := JStr (js "11"); Campaign.name := JStr (js "Funnel 1 - Top") |}.

(** An active account. *)
Definition account : Account.t :=
  {| Account.id := JStr (js "act_1");
     Account.name := JStr (js "Main");
     Account.account_status := JNum (of_Z 1) |}.

Definition world_of (campaigns : axios_result Campaign.t)
  (insights : axios_result Insight.t) : script :=
  {| accounts_reply := Resolved (Some [account]);
     campaigns_reply := campaigns;
     insights_reply := insights;
     upsert_reply := Written |}.

Definition state_of (w : script) (t : table) : @state services :=
  {| world := (w : @World services); rows := t |}.

(** A run that starts on an empty table. *)
Definition start (w : script) : @state services := state_of w [].

Definition both : script := world_of (Resolved (Some [])) (Resolved (Some [top; mid])).
Definition dark : script := world_of (Resolved (Some [])) (Resolved (Some [unseen])).

(** The campaign request is rejected. *)
Definition offline : script := world_of Rejected (Resolved (Some [top])).

(** No request to the Graph API succeeds. *)
Definition unreachable : script :=
  {| accounts_reply := Rejected;
     campaigns_reply := Rejected;
     insights_reply := Rejected;
     upsert_reply := Written |}.

(** A listed campaign without insight records, and an insight record
    without a listed campaign. *)
Definition quiet : script := world_of (Resolved (Some [listed])) (Resolved (Some [])).
Definition unlisted : script := world_of (Resolved (Some [])) (Resolved (Some [top])).

(** Two accumulators with the same FunnelKey, and one with another key. *)
Definition early : Funnel.t :=
  finalize (new_funnel (js "1") (js "2024-03-01") (js "2024-03-08")).
Definition late : Funnel.t :=
  finalize (Funnel.set_totals early (of_Z 150) (of_Z 1500) (of_Z 750) (of_Z 30) None).
Definition other : Funnel.t :=
  finalize (new_funnel (js "2") (js "2024-03-01") (js "2024-03-08")).

End Scenario.

(** * Further runs: inactive and malformed accounts, unnamed records,
      failing writes *)
Module Cases.

(** An account that is not active (status 2), an active account whose
    reply carries no id, and an active account whose id lacks the
    prefix. *)
Definition dormant : Account.t :=
  {| Account.id := JStr (js "act_2");
     Account.name := JStr (js "Old");
     Account.account_status := JNum (of_Z 2) |}.
Definition nameless : Account.t :=
  {| Account.id := JUndefined;
     Account.name := JStr (js "Broken");
     Account.account_status := JNum (of_Z 1) |}.
Definition unprefixed : Account.t :=
  {| Account.id := JStr (js "1");
     Account.name := JStr (js "Bare");
     Account.account_status := JNum (of_Z 1) |}.

(** A record without a name whose campaign is [Scenario.listed], and one
    whose campaign is not listed. *)
Definition anonymous : Insight.t :=
  {| Insight.campaign_id := JStr (js "11");
     Insight.campaign_name := JUndefined;
     Insight.spend := JStr (js "7");
     Insight.impressions := JStr (js "70");
     Insight.reach := JStr (js "35");
     Insight.clicks := JStr (js "1") |}.
Definition stray : Insight.t :=
  {| Insight.campaign_id := JStr (js "99");
     Insight.campaign_name := JUndefined;
     Insight.spend := JStr (js "7");
     Insight.impressions := JStr (js "70");
     Insight.reach := JStr (js "35");
     Insight.clicks := JStr (js "1") |}.

(** A record whose name is not a string. *)
Definition misnamed : Insight.t :=
  {| Insight.campaign_id := JStr (js "15");
     Insight.campaign_name := JBool true;
     Insight.spend := JStr (js "7");
     Insight.impressions := JStr (js "70");
     Insight.reach := JStr (js "35");
     Insight.clicks := JStr (js "1") |}.

(** A record whose name has no funnel token, one without any metric, and
    one whose impressions carry a thousands separator. *)
Definition brand : Insight.t :=
  Scenario.insight "41" "Brand Awareness" "3" "30" "20" "2".
Definition silent : Insight.t :=
  {| Insight.campaign_id := JStr (js "51");
     Insight.campaign_name := JStr (js "Funnel 5");
     Insight.spend := JUndefined;
     Insight.impressions := JUndefined;
     Insight.reach := JUndefined;
     Insight.clicks := JUndefined |}.
Definition thousands : Insight.t :=
  Scenario.insight "61" "Funnel 6" "12" "1,000" "900" "40".

(** The insight reply holds a record whose name is not a string. *)
Definition mixed : Scenario.script :=
  Scenario.world_of (Resolved (Some [])) (Resolved (Some [Scenario.top; misnamed])).

(** The store answers every write with an error, or rejects the call. *)
Definition refusing : Scenario.script :=
  {| Scenario.accounts_reply := Resolved (Some [Scenario.account]);
     Scenario.campaigns_reply := Resolved (Some []);
     Scenario.insights_reply := Resolved (Some [Scenario.top]);
     Scenario.upsert_reply := ErrorReturned |}.
Definition failing : Scenario.script :=
  {| Scenario.accounts_reply := Resolved (Some [Scenario.account]);
     Scenario.campaigns_reply := Resolved (Some []);
     Scenario.insights_reply := Resolved (Some [Scenario.top]);
     Scenario.upsert_reply := WriteThrown |}.

(** The listing starts with the account without id. *)
Definition broken_listing : Scenario.script :=
  {| Scenario.accounts_reply := Resolved (Some [nameless; Scenario.account]);
     Scenario.campaigns_reply := Resolved (Some []);
     Scenario.insights_reply := Resolved (Some [Scenario.top]);
     Scenario.upsert_reply := Written |}.

End Cases.

(* ===================================================================== *)
(** * Properties *)
(* ===================================================================== *)

Ltac N_cases :=
  repeat match goal with
    | |- context [(?a <=? ?b)%N] => destruct (N.leb_spec a b)
    | |- context [(?a <? ?b)%N] => destruct (N.ltb_spec a b)
    | |- context [(?a =? ?b)%N] => destruct (N.eqb_spec a b)
    | H : context [(?a <=? ?b)%N] |- _ => destruct (N.leb_spec a b)
    | H : context [(?a <? ?b)%N] |- _ => destruct (N.ltb_spec a b)
    | H : context [(?a =? ?b)%N] |- _ => destruct (N.eqb_spec a b)
    end; cbn in *; try done; try lia.

(** ** Exact integer arithmetic in binary64 *)

Lemma digits2_pos_bounds (p : positive) :
  2 ^ (Zpos (digits2_pos p) - 1) <= Zpos p < 2 ^ Zpos (digits2_pos p).
Proof.
  induction p as [p IH | p IH | ]; cbn [digits2_pos].
  - rewrite Pos2Z.inj_succ, Z.pow_succ_r by lia.
    replace (Z.succ (Zpos (digits2_pos p)) - 1) with (Z.succ (Zpos (digits2_pos p) - 1)) by lia.
    rewrite Z.pow_succ_r by lia. lia.
  - rewrite Pos2Z.inj_succ, Z.pow_succ_r by lia.
    replace (Z.succ (Zpos (digits2_pos p)) - 1) with (Z.succ (Zpos (digits2_pos p) - 1)) by lia.
    rewrite Z.pow_succ_r by lia. lia.
  - cbn. lia.
Qed.

Lemma digits2_pos_unique (p : positive) (d : Z) :
  2 ^ (d - 1) <= Zpos p < 2 ^ d -> Zpos (digits2_pos p) = d.
Proof.
  intros [Hlo Hhi]. pose proof (digits2_pos_bounds p) as [Hlo' Hhi'].
  assert (0 < d).
  { destruct (Z_lt_le_dec 0 d) as [|Hd]; [done|].
    assert (2 ^ d <= 2 ^ 0) by (destruct (Z.eq_dec d 0) as [->|]; [lia|];
      rewrite Z.pow_neg_r by lia; cbn; lia).
    cbn in *. lia. }
  destruct (Z.lt_trichotomy (Zpos (digits2_pos p)) d) as [Hlt | [Heq | Hgt]]; [|done|].
  - assert (2 ^ Zpos (digits2_pos p) <= 2 ^ (d - 1)) by (apply Z.pow_le_mono_r; lia). lia.
  - assert (2 ^ d <= 2 ^ (Zpos (digits2_pos p) - 1)) by (apply Z.pow_le_mono_r; lia). lia.
Qed.

Lemma scale_bounds (a p b c : Z) :
  a <= p < b -> 0 < c -> a * c <= p * c < b * c.
Proof.
  intros [? ?] ?. split;
    [apply Z.mul_le_mono_nonneg_r | apply Z.mul_lt_mono_pos_r]; lia.
Qed.

Lemma iter_pos_nat {A} (f : A -> A) (p : positive) (x : A) :
  SpecFloat.iter_pos f p x = Nat.iter (Pos.to_nat p) f x.
Proof.
  revert x. induction p as [p IH | p IH | ]; intros x; cbn [SpecFloat.iter_pos].
  - rewrite !IH, Pos2Nat.inj_xI, <- Nat.iter_add, <- Nat.iter_succ_r.
    f_equal. lia.
  - rewrite !IH, Pos2Nat.inj_xO, <- Nat.iter_add. f_equal. lia.
  - done.
Qed.

Lemma shr_1_even (m : positive) :
  shr_1 {| shr_m := Zpos m~0; shr_r := false; shr_s := false |}
  = {| shr_m := Zpos m; shr_r := false; shr_s := false |}.
Proof. done. Qed.

Lemma iter_shr_1_exact (q : nat) (M m : positive) :
  Zpos m = Zpos M * 2 ^ Z.of_nat q ->
  Nat.iter q shr_1 {| shr_m := Zpos m; shr_r := false; shr_s := false |}
  = {| shr_m := Zpos M; shr_r := false; shr_s := false |}.
Proof.
  revert m. induction q as [|q IH]; intros m Hm.
  - cbn in Hm. rewrite Z.mul_1_r in Hm. by inversion Hm.
  - rewrite Nat.iter_succ_r.
    rewrite Nat2Z.inj_succ, Z.pow_succ_r in Hm by lia.
    destruct m as [m | m | ]; [lia | | lia].
    rewrite shr_1_even. apply IH. lia.
Qed.

(** Rounding a mantissa that is a 53-bit number times a power of two is
    exact: the trailing zeros move into the exponent. *)
Lemma binary_round_aux_exact (s : bool) (M m : positive) (E q : Z) :
  Zpos (digits2_pos M) = 53 -> -1074 <= E <= 971 -> 0 <= q ->
  Zpos m = Zpos M * 2 ^ q ->
  binary_round_aux prec emax s (Zpos m) (E - q) loc_Exact = S754_finite s M E.
Proof.
  intros HM HE Hq Hm.
  assert (Hdm : Zpos (digits2_pos m) = 53 + q).
  { apply digits2_pos_unique. pose proof (digits2_pos_bounds M) as HB.
    rewrite HM in HB. rewrite Hm.
    replace (53 + q - 1) with (52 + q) by lia.
    rewrite !Z.pow_add_r by lia.
    apply scale_bounds; [done | apply Z.pow_pos_nonneg; lia]. }
  assert (Hfix : shr_fexp prec emax (Zpos M) E loc_Exact
                 = ({| shr_m := Zpos M; shr_r := false; shr_s := false |}, E)).
  { unfold shr_fexp, fexp, SpecFloat.emin, prec, emax. cbn [Zdigits2 shr_record_of_loc].
    rewrite HM.
    replace (Z.max (53 + E - 53) (3 - 1024 - 53) - E) with 0 by lia. done. }
  unfold binary_round_aux.
  assert (Hfirst : shr_fexp prec emax (Zpos m) (E - q) loc_Exact
                 = ({| shr_m := Zpos M; shr_r := false; shr_s := false |}, E)).
  { unfold shr_fexp, fexp, SpecFloat.emin, prec, emax. cbn [Zdigits2 shr_record_of_loc].
    rewrite Hdm.
    replace (Z.max (53 + q + (E - q) - 53) (3 - 1024 - 53) - (E - q)) with q by lia.
    destruct q as [|q|q]; [| |lia].
    - cbn [shr]. rewrite Z.sub_0_r. cbn in Hm. rewrite Z.mul_1_r in Hm. by inversion Hm.
    - cbn [shr]. rewrite iter_pos_nat.
      rewrite (iter_shr_1_exact _ M) by (by rewrite positive_nat_Z).
      f_equal. lia. }
  rewrite Hfirst. cbn [shr_m loc_of_shr_record round_nearest_even].
  rewrite Hfix. cbn [shr_m].
  unfold prec, emax. destruct (E <=? 1024 - 53) eqn:Hle; [done | lia].
Qed.

Lemma Zpos_iter_xO (m d : positive) :
  Zpos (Pos.iter xO m d) = Zpos m * 2 ^ Zpos d.
Proof.
  induction d as [|d IH] using Pos.peano_ind.
  - cbn. lia.
  - rewrite Pos.iter_succ, Pos2Z.inj_succ, Z.pow_succ_r by lia.
    rewrite Pos2Z.inj_xO, IH. lia.
Qed.

Lemma binary_round_int (m p : positive) (k : Z) :
  0 <= k -> Zpos p < 2 ^ 53 -> Zpos m = Zpos p * 2 ^ k ->
  binary_round prec emax false m (- k) = canonical_int p.
Proof.
  intros Hk Hp Hm. unfold canonical_int.
  set (d := Zpos (digits2_pos p)).
  pose proof (digits2_pos_bounds p) as HB. fold d in HB.
  assert (Hd : 1 <= d <= 53).
  { split; [unfold d; lia|].
    destruct (Z_le_gt_dec d 53) as [|Hgt]; [done|].
    assert (2 ^ 53 <= 2 ^ (d - 1)) by (apply Z.pow_le_mono_r; lia). lia. }
  assert (Hpow : 0 < 2 ^ (53 - d)) by (apply Z.pow_pos_nonneg; lia).
  set (M := Z.to_pos (Zpos p * 2 ^ (53 - d))).
  assert (HMz : Zpos M = Zpos p * 2 ^ (53 - d)) by (unfold M; rewrite Z2Pos.id; lia).
  assert (HMd : Zpos (digits2_pos M) = 53).
  { apply digits2_pos_unique.
    assert (E1 : 2 ^ (53 - 1) = 2 ^ (d - 1) * 2 ^ (53 - d))
      by (rewrite <- Z.pow_add_r by lia; f_equal; lia).
    assert (E2 : 2 ^ 53 = 2 ^ d * 2 ^ (53 - d))
      by (rewrite <- Z.pow_add_r by lia; f_equal; lia).
    rewrite E1, E2, HMz. apply scale_bounds; assumption. }
  assert (Hdm : Zpos (digits2_pos m) = d + k).
  { apply digits2_pos_unique. rewrite Hm.
    replace (d + k - 1) with ((d - 1) + k) by lia.
    rewrite !Z.pow_add_r by lia.
    apply scale_bounds; [done | apply Z.pow_pos_nonneg; lia]. }
  unfold binary_round. rewrite Hdm.
  replace (fexp prec emax (d + k + - k)) with (d - 53)
    by (unfold fexp, SpecFloat.emin, prec, emax; lia).
  unfold shl_align.
  destruct (d - 53 - - k) as [|q|q] eqn:Hq.
  - replace (- k) with ((d - 53) - 0) by lia.
    apply binary_round_aux_exact; [done | lia | lia |].
    rewrite Hm, HMz, Z.mul_1_r. f_equal. f_equal. lia.
  - replace (- k) with ((d - 53) - Zpos q) by lia.
    apply binary_round_aux_exact; [done | lia | lia |].
    rewrite Hm, HMz, <- Z.mul_assoc, <- Z.pow_add_r by lia. f_equal. f_equal. lia.
  - replace (d - 53) with ((d - 53) - 0) at 1 by lia.
    apply binary_round_aux_exact; [done | lia | lia |].
    rewrite Zpos_iter_xO, Hm, HMz, Z.mul_1_r, <- Z.mul_assoc, <- Z.pow_add_r by lia.
    f_equal. f_equal. lia.
Qed.

Lemma of_Z_pos (p : positive) :
  Zpos p < 2 ^ 53 -> of_Z (Zpos p) = canonical_int p.
Proof.
  intros Hp. unfold of_Z, binary_normalize.
  change 0 with (- 0). apply binary_round_int; [lia | done | cbn; lia].
Qed.

Lemma fst_shl_align (m : positive) (e e' : Z) :
  e' <= e -> Zpos (fst (shl_align m e e')) = Zpos m * 2 ^ (e - e').
Proof.
  intros He. unfold shl_align.
  destruct (e' - e) as [|q|q] eqn:Hq; cbn [fst]; [| lia |].
  - replace (e - e') with 0 by lia. cbn. lia.
  - rewrite Zpos_iter_xO. f_equal. f_equal. lia.
Qed.

(** Addition of non-negative integers is exact below [2^53]. *)
Lemma add_of_Z (a b : Z) :
  0 <= a -> 0 <= b -> a + b < 2 ^ 53 ->
  add (of_Z a) (of_Z b) = of_Z (a + b).
Proof.
  intros Ha Hb Hab.
  destruct a as [|pa|pa]; [ | | lia].
  { destruct b as [|pb|pb]; [done | | lia].
    rewrite Z.add_0_l, of_Z_pos by lia. done. }
  destruct b as [|pb|pb]; [ | | lia].
  { rewrite Z.add_0_r, of_Z_pos by lia. done. }
  rewrite (of_Z_pos pa), (of_Z_pos pb) by lia.
  change (Zpos pa + Zpos pb) with (Zpos (pa + pb)).
  rewrite (of_Z_pos (pa + pb)) by (rewrite Pos2Z.inj_add; lia).
  unfold canonical_int at 1 2.
  set (da := Zpos (digits2_pos pa)). set (db := Zpos (digits2_pos pb)).
  assert (Hda : 1 <= da <= 53).
  { pose proof (digits2_pos_bounds pa) as HB. fold da in HB.
    split; [unfold da; lia|].
    destruct (Z_le_gt_dec da 53) as [|Hgt]; [done|].
    assert (2 ^ 53 <= 2 ^ (da - 1)) by (apply Z.pow_le_mono_r; lia). lia. }
  assert (Hdb : 1 <= db <= 53).
  { pose proof (digits2_pos_bounds pb) as HB. fold db in HB.
    split; [unfold db; lia|].
    destruct (Z_le_gt_dec db 53) as [|Hgt]; [done|].
    assert (2 ^ 53 <= 2 ^ (db - 1)) by (apply Z.pow_le_mono_r; lia). lia. }
  assert (0 < 2 ^ (53 - da)) by (apply Z.pow_pos_nonneg; lia).
  assert (0 < 2 ^ (53 - db)) by (apply Z.pow_pos_nonneg; lia).
  unfold add, SFadd. cbn [cond_Zopp].
  set (ez := Z.min (da - 53) (db - 53)).
  set (ma := fst (shl_align _ (da - 53) ez)).
  set (mb := fst (shl_align _ (db - 53) ez)).
  change (Zpos ma + Zpos mb) with (Zpos (ma + mb)).
  cbn [binary_normalize].
  replace ez with (- - ez) by lia.
  apply binary_round_int; [lia | rewrite Pos2Z.inj_add; lia |].
  rewrite Pos2Z.inj_add. unfold ma, mb.
  rewrite !fst_shl_align by lia.
  rewrite !Z2Pos.id by lia.
  rewrite <- !Z.mul_assoc, <- !Z.pow_add_r by lia.
  rewrite Pos2Z.inj_add, Z.mul_add_distr_r. f_equal; f_equal; f_equal; lia.
Qed.

(** ** The regular expression *)

Lemma span_app (p : N -> bool) (s : jsstring) :
  fst (span p s) ++ snd (span p s) = s.
Proof.
  induction s as [|c s IH]; [done|]. cbn.
  destruct (p c); [|done]. destruct (span p s). cbn in *. by rewrite IH.
Qed.

Lemma span_fst_all (p : N -> bool) (s : jsstring) :
  forallb p (fst (span p s)) = true.
Proof.
  induction s as [|c s IH]; [done|]. cbn.
  destruct (p c) eqn:Hc; [|done]. destruct (span p s). cbn in *. by rewrite Hc, IH.
Qed.

Lemma span_snd_head (p : N -> bool) (s : jsstring) c r :
  snd (span p s) = c :: r -> p c = false.
Proof.
  induction s as [|d s IH]; [done|]. cbn.
  destruct (p d) eqn:Hd.
  - destruct (span p s). cbn in *. done.
  - cbn. intros [= -> ->]. done.
Qed.

Lemma span_all (p : N -> bool) (a b : jsstring) :
  forallb p a = true ->
  (forall c r, b = c :: r -> p c = false) ->
  span p (a ++ b) = (a, b).
Proof.
  intros Ha Hb. induction a as [|c a IH].
  - destruct b as [|c r]; [done|]. cbn. by rewrite (Hb c r).
  - cbn in Ha. apply andb_true_iff in Ha as [Hc Ha]. cbn. by rewrite Hc, IH.
Qed.

Lemma star_fails_after {R} (a : atom) (k : jsstring -> option R) (s : jsstring) :
  (forall c s', atom_matches a c = true -> k (c :: s') = None) ->
  star a k s = k (snd (span (atom_matches a) s)).
Proof.
  intros Hk. induction s as [|c s IH]; [done|]. cbn.
  destruct (atom_matches a c) eqn:Hc; [|done].
  rewrite IH. destruct (span (atom_matches a) s) as [x y]. cbn.
  destruct (k y); [done|]. by apply Hk.
Qed.

Lemma star_succeeds {R} (a : atom) (k : jsstring -> option R) (s : jsstring) :
  (forall s', is_Some (k s')) ->
  star a k s = k (snd (span (atom_matches a) s)).
Proof.
  intros Hk. induction s as [|c s IH]; [done|]. cbn.
  destruct (atom_matches a c) eqn:Hc; [|done].
  rewrite IH. destruct (span (atom_matches a) s) as [x y]. cbn.
  destruct (Hk y) as [r ->]. done.
Qed.

Lemma digit_not_whitespace (c : N) : is_digit c = true -> is_whitespace c = false.
Proof.
  unfold is_digit, is_whitespace. intros Hc.
  apply andb_true_iff in Hc as [H1%N.leb_le H2%N.leb_le].
  repeat match goal with
         | |- (_ || _)%bool = false => apply orb_false_intro
         end;
    try (apply N.eqb_neq; lia);
    apply andb_false_iff;
    first [ left; apply N.leb_gt; lia | right; apply N.leb_gt; lia ].
Qed.

Lemma firstn_span (p : N -> bool) (s : jsstring) :
  firstn (length s - length (snd (span p s))) s = fst (span p s).
Proof.
  rewrite <- (span_app p s) at 1 3.
  rewrite length_app, Nat.add_sub, firstn_app, Nat.sub_diag, firstn_all.
  cbn. by rewrite app_nil_r.
Qed.

Lemma run_funnel_regex (s : jsstring) :
  run funnel_regex (fun _ cap => Some cap) s None = Some <$> match_here s.
Proof.
  unfold funnel_regex, chr. cbn [run].
  change (N_of_ascii "F") with 70%N. change (N_of_ascii "u") with 117%N.
  change (N_of_ascii "n") with 110%N. change (N_of_ascii "e") with 101%N.
  change (N_of_ascii "l") with 108%N.
  unfold match_here.
  destruct s as [|c1 [|c2 [|c3 [|c4 [|c5 [|c6 rest]]]]]]; cbn [atom_matches];
    repeat match goal with
      | |- context [ci_eqb ?p ?c] => destruct (ci_eqb p c); cbn [andb]
      end; try done.
  rewrite star_fails_after.
  2:{ intros c s' Hc. cbn [atom_matches] in Hc. cbv beta iota.
      destruct (is_digit c) eqn:Hd; [|done].
      apply digit_not_whitespace in Hd. congruence. }
  change (atom_matches Space) with is_whitespace.
  destruct (snd (span is_whitespace rest)) as [|c r]; [done|]. cbn [span].
  destruct (is_digit c) eqn:Hd; [|done].
  rewrite star_succeeds by (intros; eauto).
  change (atom_matches Digit) with is_digit.
  pose proof (firstn_span is_digit (c :: r)) as Hf. cbn [span] in Hf.
  rewrite Hd in Hf. destruct (span is_digit r) as [x y]. cbn in *.
  by rewrite Hf.
Qed.

Lemma String_match_scan (s : jsstring) :
  String_match funnel_regex s = Some <$> scan s.
Proof.
  induction s as [|c s IH]; cbn [String_match scan]; rewrite run_funnel_regex.
  - done.
  - destruct (match_here (c :: s)); [done|]. cbn. apply IH.
Qed.

Lemma funnelId_scan (name : jsstring) :
  funnelId name = default (js "unknown") (scan name).
Proof. unfold funnelId. rewrite String_match_scan. by destruct (scan name). Qed.

(** In every match the group has captured: [funnelMatch[1]] is a string. *)
Lemma funnel_regex_captures (name : jsstring) :
  String_match funnel_regex name <> Some None.
Proof. rewrite String_match_scan. by destruct (scan name). Qed.

Lemma ci_eqb_lower (p c : N) :
  (65 <= p <= 90)%N \/ (97 <= p <= 122)%N ->
  ci_eqb p c = true <-> ascii_lower c = ascii_lower p.
Proof.
  intros Hp. unfold ci_eqb, canonicalize, ascii_lower.
  split; intros Hc; N_cases.
Qed.

Lemma token_matches (c1 c2 c3 c4 c5 c6 : N) :
  ci_eqb 70 c1 && ci_eqb 117 c2 && ci_eqb 110 c3
  && ci_eqb 110 c4 && ci_eqb 101 c5 && ci_eqb 108 c6 = true
  <-> map ascii_lower [c1; c2; c3; c4; c5; c6] = js "funnel".
Proof.
  rewrite !andb_true_iff, !ci_eqb_lower by lia.
  change (js "funnel") with [102; 117; 110; 110; 101; 108]%N.
  change (ascii_lower 70) with 102%N. change (ascii_lower 117) with 117%N.
  change (ascii_lower 110) with 110%N. change (ascii_lower 101) with 101%N.
  change (ascii_lower 108) with 108%N.
  cbn [map]. split.
  - intros [[[[[-> ->] ->] ->] ->] ->]. done.
  - intros [= -> -> -> -> -> ->]. done.
Qed.

Lemma match_here_spec (s digits : jsstring) :
  match_here s = Some digits <-> funnel_token_at s digits.
Proof.
  split.
  - unfold match_here.
    destruct s as [|c1 [|c2 [|c3 [|c4 [|c5 [|c6 rest]]]]]]; try done.
    destruct (_ && _) eqn:Htok; [|done].
    apply token_matches in Htok.
    destruct (fst (span is_digit (snd (span is_whitespace rest)))) as [|d ds] eqn:Hds;
      [done|]. intros [= <-].
    exists [c1; c2; c3; c4; c5; c6], (fst (span is_whitespace rest)),
      (snd (span is_digit (snd (span is_whitespace rest)))).
    rewrite <- Hds, !span_fst_all, !span_app.
    repeat split; try done.
    + by rewrite Hds.
    + intros c r. apply span_snd_head.
  - intros (token & spaces & rest & -> & Htok & Hsp & Hne & Hds & Hrest).
    destruct token as [|c1 [|c2 [|c3 [|c4 [|c5 [|c6 [|c7 token]]]]]]]; try done.
    apply token_matches in Htok. cbn [app]. unfold match_here. rewrite Htok.
    rewrite span_all; [| done |].
    2:{ intros c r Hc. destruct digits as [|d ds]; [done|].
        cbn in Hc, Hds. injection Hc as <- _.
        apply andb_true_iff in Hds as [Hd _]. by apply digit_not_whitespace. }
    cbn [snd]. rewrite span_all by done. cbn [fst].
    by destruct digits.
Qed.

Lemma scan_first (name pre s digits : jsstring) :
  name = pre ++ s ->
  match_here s = Some digits ->
  (forall pre' s', name = pre' ++ s' -> (length pre' < length pre)%nat ->
                   match_here s' = None) ->
  scan name = Some digits.
Proof.
  revert name. induction pre as [|c pre IH]; intros name -> Hs Hfirst.
  - destruct s; cbn [app scan]; by rewrite Hs.
  - cbn [app scan].
    rewrite (Hfirst [] (c :: pre ++ s)) by (cbn; done || lia).
    apply IH; [done | done |].
    intros pre' s' Heq Hlen. apply (Hfirst (c :: pre') s').
    + cbn. by rewrite Heq.
    + cbn. lia.
Qed.

Lemma scan_none (name : jsstring) :
  (forall pre s, name = pre ++ s -> match_here s = None) ->
  scan name = None.
Proof.
  induction name as [|c name IH]; intros Hnone.
  - done.
  - cbn [scan]. rewrite (Hnone [] (c :: name)) by done.
    apply IH. intros pre s ->. by apply (Hnone (c :: pre) s).
Qed.

Lemma match_here_none (s : jsstring) :
  (forall digits, ~ funnel_token_at s digits) -> match_here s = None.
Proof.
  intros Hs. destruct (match_here s) as [ds|] eqn:Hm; [|done].
  apply match_here_spec in Hm. by destruct (Hs ds).
Qed.

(** C3.  Classification is a case-insensitive match for the token
    "Funnel" followed by optional whitespace and one or more digits: when
    the name has a match, [funnelId] is the digit run captured at the
    leftmost one; when it has none, [funnelId] is the literal "unknown".
    "Spring Funnel 3 Retargeting" gives "3", "Brand Awareness" gives
    "unknown" and "FUNNEL7" gives "7". *)
Theorem classification_by_funnel_token :
  (forall name pre s digits,
      name = pre ++ s ->
      funnel_token_at s digits ->
      (forall pre' s' digits',
          name = pre' ++ s' -> (length pre' < length pre)%nat ->
          ~ funnel_token_at s' digits') ->
      funnelId name = digits)
  /\ (forall name,
        (forall pre s digits, name = pre ++ s -> ~ funnel_token_at s digits) ->
        funnelId name = js "unknown")
  /\ funnelId (js "Spring Funnel 3 Retargeting") = js "3"
  /\ funnelId (js "Brand Awareness") = js "unknown"
  /\ funnelId (js "FUNNEL7") = js "7".
Proof.
  split; [|split; [|by vm_compute]].
  - intros name pre s digits Hname Hs Hfirst. rewrite funnelId_scan.
    rewrite (scan_first name pre s digits); [done | done | |].
    + by apply match_here_spec.
    + intros pre' s' Heq Hlen. apply match_here_none.
      intros ds. by apply (Hfirst pre' s' ds).
  - intros name Hnone. rewrite funnelId_scan, scan_none; [done|].
    intros pre s Heq. apply match_here_none. intros ds. by apply (Hnone pre s ds).
Qed.

(** ** Reading numbers *)

Lemma digits_value_from (ds : jsstring) (acc : Z) :
  0 <= acc ->
  0 <= fold_left (fun acc c => 10 * acc + digit_value c) ds acc.
Proof.
  revert acc. induction ds as [|c ds IH]; intros acc Hacc; [done|].
  cbn. apply IH. unfold digit_value. lia.
Qed.

Lemma digits_value_nonneg (ds : jsstring) : 0 <= digits_value ds.
Proof. by apply digits_value_from. Qed.

Lemma span_whole (p : N -> bool) (s : jsstring) :
  forallb p s = true -> span p s = (s, []).
Proof.
  intros Hs. rewrite <- (app_nil_r s) at 1. by apply span_all.
Qed.

Lemma digit_cases (c : N) :
  is_digit c = true -> In c [48; 49; 50; 51; 52; 53; 54; 55; 56; 57]%N.
Proof.
  unfold is_digit. intros [H1%N.leb_le H2%N.leb_le]%andb_true_iff. cbn. lia.
Qed.

Lemma sign_of_digits (c : N) (r : jsstring) :
  is_digit c = true -> take_sign (trim_start (c :: r)) = (false, c :: r).
Proof.
  intros Hc. cbn [trim_start]. rewrite (digit_not_whitespace c Hc).
  apply digit_cases in Hc. cbn in Hc.
  repeat destruct Hc as [<- | Hc]; done.
Qed.

Lemma parseInt_digits (ds : jsstring) :
  ds <> [] -> forallb is_digit ds = true ->
  parseInt_string ds = of_Z (digits_value ds).
Proof.
  intros Hne Hds. destruct ds as [|c r]; [done|].
  pose proof Hds as Hall. cbn [forallb] in Hds.
  apply andb_true_iff in Hds as [Hc Hr].
  unfold parseInt_string. rewrite sign_of_digits by done.
  assert (Hsel : radix_digits (c :: r) = (c :: r, digits_value (c :: r))).
  { unfold radix_digits. rewrite span_whole by done. cbn [fst].
    destruct r as [|x r0].
    - apply digit_cases in Hc. cbn in Hc.
      repeat destruct Hc as [<- | Hc]; done.
    - cbn [forallb] in Hr. apply andb_true_iff in Hr as [Hx _].
      assert (((x =? 120) || (x =? 88))%N = false) as Hx'.
      { unfold is_digit in Hx. N_cases. }
      apply digit_cases in Hc. cbn in Hc.
      repeat destruct Hc as [<- | Hc]; try done; by rewrite ?Hx'. }
  rewrite Hsel.
  pose proof (digits_value_nonneg (c :: r)).
  destruct (digits_value (c :: r)); [done | done | lia].
Qed.

Lemma parseFloat_digits (ds : jsstring) :
  ds <> [] -> forallb is_digit ds = true ->
  parseFloat_string ds = of_Z (digits_value ds).
Proof.
  intros Hne Hds. destruct ds as [|c r]; [done|].
  pose proof Hds as Hall. cbn [forallb] in Hds.
  apply andb_true_iff in Hds as [Hc Hr].
  unfold parseFloat_string. rewrite sign_of_digits by done.
  assert (starts_with (js "Infinity") (c :: r) = None) as ->.
  { apply digit_cases in Hc. cbn in Hc.
    repeat destruct Hc as [<- | Hc]; done. }
  rewrite span_whole by done. rewrite app_nil_r.
  pose proof (digits_value_nonneg (c :: r)).
  destruct (digits_value (c :: r)) as [|m|m]; [done | | lia].
  unfold of_decimal, of_Z. cbn [exponent_part length Z.of_nat Z.sub Z.leb Z.compare Z.opp Z.add cond_Zopp].
  change (10 ^ 0) with 1. by rewrite Z.mul_1_r.
Qed.

Section Reading.
Context `{Engine}.

Lemma falsy_reads_zero (v : jsval) :
  ToBoolean v = false ->
  parseFloat (or_else v (JNum zero)) = zero
  /\ parseInt (or_else v (JNum zero)) = zero.
Proof. intros Hv. unfold or_else. rewrite Hv. by vm_compute. Qed.

Lemma natural_reads (v : jsval) (n : Z) :
  natural_value v = Some n ->
  parseFloat (or_else v (JNum zero)) = of_Z n
  /\ parseInt (or_else v (JNum zero)) = of_Z n
  /\ 0 <= n.
Proof.
  unfold natural_value. destruct (ToBoolean v) eqn:Hv.
  - destruct v as [| | |x|ds]; try done.
    destruct (forallb is_digit ds) eqn:Hds; [|done]. intros [= <-].
    unfold or_else. rewrite Hv. unfold parseFloat, parseInt. cbn [ToString].
    assert (ds <> []) by (by destruct ds).
    rewrite parseFloat_digits, parseInt_digits by done.
    auto using digits_value_nonneg.
  - intros [= <-]. destruct (falsy_reads_zero v Hv) as [-> ->]. done.
Qed.

End Reading.

(** ** The aggregator *)

Lemma fd_get_None (fd : funnel_data) (k : jsstring) :
  fd_get fd k = None <-> ~ In k (map fst fd).
Proof.
  induction fd as [|[k' f] fd IH]; cbn; [tauto|].
  case_bool_decide; [split; [done | tauto] |]. rewrite IH. tauto.
Qed.

Lemma fd_get_Some (fd : funnel_data) (k : jsstring) (f : Funnel.t) :
  fd_get fd k = Some f -> In k (map fst fd).
Proof.
  induction fd as [|[k' f'] fd IH]; cbn; [done|].
  case_bool_decide; [by left | by right; apply IH].
Qed.

Lemma fd_alter_keys (g : Funnel.t -> Funnel.t) (k : jsstring) (fd : funnel_data) :
  map fst (fd_alter g k fd) = map fst fd.
Proof.
  induction fd as [|[k' f] fd IH]; cbn; [done|].
  case_bool_decide; cbn; by rewrite ?IH.
Qed.

Lemma fd_alter_Forall (P : jsstring * Funnel.t -> Prop) (g : Funnel.t -> Funnel.t)
  (k : jsstring) (fd : funnel_data) :
  (forall f, P (k, f) -> P (k, g f)) ->
  Forall P fd -> Forall P (fd_alter g k fd).
Proof.
  intros Hg. induction 1 as [|[k' f] fd Hf Hfd IH]; cbn; [constructor|].
  case_bool_decide; subst; constructor; auto.
Qed.

Section AggregatorFacts.
Context `{Engine}.

Lemma add_insight_fresh (sd ed name : jsstring) (i : Insight.t) (k : jsstring) (f : Funnel.t) :
  fresh sd ed (k, f) -> fresh sd ed (k, add_insight name i f).
Proof. unfold fresh. cbn. tauto. Qed.

Lemma new_funnel_fresh (sd ed k : jsstring) : fresh sd ed (k, new_funnel k sd ed).
Proof. unfold fresh. cbn. tauto. Qed.

Lemma fold_insight_inv (cm : campaign_map) (sd ed : jsstring)
  (fd fd' : funnel_data) (i : Insight.t) :
  fold_insight cm sd ed fd i = Returned fd' ->
  Forall (fresh sd ed) fd -> NoDup (map fst fd) ->
  Forall (fresh sd ed) fd' /\ NoDup (map fst fd')
  /\ (forall k, In k (map fst fd) -> In k (map fst fd'))
  /\ exists name, campaignName cm i = Value (JStr name)
                  /\ In (funnelId name) (map fst fd').
Proof.
  unfold fold_insight. intros Hstep Hfresh Hnodup.
  destruct (campaignName cm i) as [[| | | |name]|]; try done.
  injection Hstep as <-. rewrite fd_alter_keys.
  destruct (fd_get fd (funnelId name)) eqn:Hget.
  - repeat split; [| done | done |].
    + apply fd_alter_Forall; [|done]. intros f. apply add_insight_fresh.
    + exists name. split; [done|]. by apply fd_get_Some in Hget.
  - apply fd_get_None in Hget. rewrite map_app. cbn [map fst].
    repeat split.
    + apply fd_alter_Forall; [intros f; apply add_insight_fresh|].
      apply Forall_app. split; [done|]. repeat constructor; by cbn.
    + apply NoDup_app. repeat split; [done | | apply NoDup_singleton].
      intros k Hk Hk2. apply list_elem_of_In in Hk, Hk2.
      destruct Hk2 as [<-|[]]. done.
    + intros k Hk. apply in_or_app. by left.
    + exists name. split; [done|]. apply in_or_app. right. by left.
Qed.

Lemma fold_insights_inv (cm : campaign_map) (sd ed : jsstring)
  (data : list Insight.t) (fd fd' : funnel_data) :
  fold_insights cm sd ed fd data = Returned fd' ->
  Forall (fresh sd ed) fd -> NoDup (map fst fd) ->
  Forall (fresh sd ed) fd' /\ NoDup (map fst fd')
  /\ forall i, In i data ->
       exists name, campaignName cm i = Value (JStr name)
                    /\ In (funnelId name) (map fst fd').
Proof.
  revert fd. induction data as [|i data IH]; intros fd Hfold Hfresh Hnodup.
  - injection Hfold as <-. repeat split; done.
  - cbn [fold_insights] in Hfold.
    destruct (fold_insight cm sd ed fd i) as [fd1|] eqn:Hstep; [|done].
    destruct (fold_insight_inv _ _ _ _ _ _ Hstep Hfresh Hnodup)
      as (Hfresh1 & Hnodup1 & Hkeys1 & name & Hname & Hin).
    destruct (IH fd1 Hfold Hfresh1 Hnodup1) as (Hfresh' & Hnodup' & Hall).
    repeat split; try done.
    intros j [<- | Hj]; [|by apply Hall].
    exists name. split; [done|].
    clear -Hfold Hin. revert fd1 Hfold Hin.
    induction data as [|i' data IHd]; intros fd1 Hfold Hin.
    + by injection Hfold as <-.
    + cbn [fold_insights] in Hfold.
      destruct (fold_insight cm sd ed fd1 i') as [fd2|] eqn:Hstep; [|done].
      apply (IHd fd2 Hfold).
      unfold fold_insight in Hstep.
      destruct (campaignName cm i') as [[| | | |name']|]; try done.
      injection Hstep as <-. rewrite fd_alter_keys.
      destruct (fd_get fd1 (funnelId name')); [done|].
      rewrite map_app. apply in_or_app. by left.
Qed.

(** [Object.values] lists every property exactly once. *)
Lemma insert_sorted_Permutation {A} (i : Z) (x : A) (l : list (Z * A)) :
  Permutation (insert_sorted i x l) ((i, x) :: l).
Proof.
  induction l as [|[j y] l IH]; cbn; [done|].
  destruct (i <? j); [done|]. rewrite IH. apply perm_swap.
Qed.

Lemma Object_values_Permutation (fd : funnel_data) :
  Permutation (Object_values fd) (map snd fd).
Proof.
  unfold Object_values, indexed_properties, named_properties.
  change (map snd fd) with (map snd (@nil (Z * Funnel.t)) ++ map snd fd).
  generalize (@nil (Z * Funnel.t)) as acc.
  induction fd as [|[k f] fd IH]; intros acc; cbn [fold_left List.filter fst snd map].
  - done.
  - destruct (array_index k) as [i|].
    + rewrite IH, (Permutation_map snd (insert_sorted_Permutation i f acc)).
      cbn [map snd]. apply (Permutation_middle (map snd acc)).
    + cbn [map snd]. rewrite <- (Permutation_middle (map snd (fold_left _ fd acc))).
      rewrite <- (Permutation_middle (map snd acc)). by rewrite IH.
Qed.

Lemma finalize_key (f : Funnel.t) : Funnel.key (finalize f) = Funnel.key f.
Proof.
  unfold finalize.
  destruct (gt (Funnel.reach f) zero); cbn;
    match goal with |- context [gt ?x zero] => destruct (gt x zero) end; done.
Qed.

Lemma finalize_totals (f : Funnel.t) :
  Funnel.funnel_id (finalize f) = Funnel.funnel_id f
  /\ Funnel.amount_spent (finalize f) = Funnel.amount_spent f
  /\ Funnel.impressions (finalize f) = Funnel.impressions f
  /\ Funnel.reach (finalize f) = Funnel.reach f
  /\ Funnel.ads_link_clicks (finalize f) = Funnel.ads_link_clicks f.
Proof.
  unfold finalize.
  destruct (gt (Funnel.reach f) zero); cbn;
    match goal with |- context [gt ?x zero] => destruct (gt x zero) end; done.
Qed.

(** Every returned accumulator is a finalized property of a [funnelData]
    that satisfies the loop invariant, and the keys are distinct. *)
Lemma aggregate_inv (campaigns : list Campaign.t) (data : list Insight.t)
  (sd ed : jsstring) (out : list Funnel.t) :
  aggregate campaigns data sd ed = Returned out ->
  exists fd,
    out = map finalize (Object_values fd)
    /\ Forall (fresh sd ed) fd /\ NoDup (map fst fd)
    /\ forall i, In i data ->
         exists name,
           campaignName (build_campaign_map campaigns) i = Value (JStr name)
           /\ In (funnelId name) (map fst fd).
Proof.
  unfold aggregate. intros Hagg.
  destruct (fold_insights _ sd ed [] data) as [fd|] eqn:Hfold; [|done].
  injection Hagg as <-. exists fd. split; [done|].
  apply (fold_insights_inv _ _ _ _ _ _ Hfold); constructor.
Qed.

Lemma aggregate_members (campaigns : list Campaign.t) (data : list Insight.t)
  (sd ed : jsstring) (out : list Funnel.t) (f : Funnel.t) :
  aggregate campaigns data sd ed = Returned out -> In f out ->
  exists g, f = finalize g /\ Funnel.frequency g = zero
            /\ Funnel.link_ctr g = None.
Proof.
  intros Hagg Hf. destruct (aggregate_inv _ _ _ _ _ Hagg) as (fd & -> & Hfresh & _).
  apply in_map_iff in Hf as (g & <- & Hg). exists g. split; [done|].
  apply (Permutation_in _ (Object_values_Permutation fd)) in Hg.
  apply in_map_iff in Hg as ([k g'] & <- & Hkg).
  rewrite Forall_forall in Hfresh. apply list_elem_of_In in Hkg.
  destruct (Hfresh _ Hkg) as (_ & _ & _ & ? & ?). done.
Qed.

End AggregatorFacts.

Lemma fd_alter_app_new (g : Funnel.t -> Funnel.t) (k : jsstring) (f : Funnel.t)
  (fd : funnel_data) :
  ~ In k (map fst fd) -> fd_alter g k (fd ++ [(k, f)]) = fd ++ [(k, g f)].
Proof.
  induction fd as [|[k' f'] fd IH]; cbn; intros Hk.
  - by rewrite bool_decide_eq_true_2.
  - case_bool_decide; [tauto|]. rewrite IH; tauto.
Qed.

Lemma fd_alter_Forall_at (P Q : jsstring * Funnel.t -> Prop)
  (g : Funnel.t -> Funnel.t) (k : jsstring) (fd : funnel_data) :
  NoDup (map fst fd) ->
  (forall k' f, k' <> k -> P (k', f) -> Q (k', f)) ->
  (forall f, P (k, f) -> Q (k, g f)) ->
  Forall P fd -> Forall Q (fd_alter g k fd).
Proof.
  intros Hnodup Hother Hat Hfd.
  induction Hfd as [|[k' f] fd Hf Hfd IH]; cbn; [constructor|].
  cbn in Hnodup. apply NoDup_cons in Hnodup as [Hk' Hnodup].
  rewrite list_elem_of_In in Hk'.
  case_bool_decide as Hk; subst.
  - constructor; [by apply Hat|].
    rewrite Forall_forall in Hfd. apply Forall_forall. intros [k'' f''] Hin.
    apply Hother; [|by apply Hfd]. intros ->.
    apply Hk'. apply list_elem_of_In in Hin. by apply (in_map fst) in Hin.
  - constructor; [by apply Hother | by apply IH].
Qed.

Lemma running_total_snoc (g : Insight.t -> number) (data : list Insight.t)
  (i : Insight.t) :
  running_total g (data ++ [i]) = add (running_total g data) (g i).
Proof. unfold running_total. by rewrite fold_left_app. Qed.

Section GroupTotals.
Context `{Engine}.

Lemma group_snoc_same (cm : campaign_map) (fid : jsstring)
  (data : list Insight.t) (i : Insight.t) :
  funnelId (resolved_name cm i) = fid ->
  group cm fid (data ++ [i]) = group cm fid data ++ [i].
Proof.
  intros Hi. unfold group. rewrite List.filter_app. cbn.
  by rewrite bool_decide_eq_true_2.
Qed.

Lemma group_snoc_other (cm : campaign_map) (fid : jsstring)
  (data : list Insight.t) (i : Insight.t) :
  funnelId (resolved_name cm i) <> fid ->
  group cm fid (data ++ [i]) = group cm fid data.
Proof.
  intros Hi. unfold group. rewrite List.filter_app. cbn.
  rewrite bool_decide_eq_false_2 by done. apply app_nil_r.
Qed.

Lemma group_absent (cm : campaign_map) (fid : jsstring) (data : list Insight.t) :
  (forall j, In j data -> funnelId (resolved_name cm j) <> fid) ->
  group cm fid data = [].
Proof.
  induction data as [|j data IH]; intros Hdata; [done|]. cbn.
  rewrite bool_decide_eq_false_2 by (apply Hdata; by left).
  apply IH. intros j' Hj'. apply Hdata. by right.
Qed.

Lemma group_In (cm : campaign_map) (fid : jsstring) (data : list Insight.t)
  (i : Insight.t) :
  In i (group cm fid data) <-> In i data /\ funnelId (resolved_name cm i) = fid.
Proof.
  unfold group. rewrite List.filter_In, bool_decide_eq_true. done.
Qed.

Lemma group_Permutation (cm : campaign_map) (fid : jsstring)
  (data data' : list Insight.t) :
  Permutation data data' -> Permutation (group cm fid data) (group cm fid data').
Proof.
  unfold group. induction 1 as [| x l l' _ IH | x y l | l l' l'' _ IH1 _ IH2]; cbn.
  - done.
  - destruct (bool_decide _); [by constructor | done].
  - do 2 destruct (bool_decide _); try done. apply perm_swap.
  - by etrans.
Qed.

(** The loop invariant of lines 106-143 on the totals. *)
Lemma fold_insight_sums (cm : campaign_map) (sd ed : jsstring)
  (fd fd' : funnel_data) (folded : list Insight.t) (i : Insight.t) :
  fold_insight cm sd ed fd i = Returned fd' ->
  NoDup (map fst fd) ->
  (forall j, In j folded -> In (funnelId (resolved_name cm j)) (map fst fd)) ->
  Forall (sums_of cm folded) fd ->
  Forall (sums_of cm (folded ++ [i])) fd'.
Proof.
  unfold fold_insight. intros Hstep Hnodup Hcover Hsums.
  pose proof (eq_refl (resolved_name cm i)) as Hname.
  unfold resolved_name at 2 in Hname.
  destruct (campaignName cm i) as [[| | | |name]|]; try done.
  injection Hstep as <-. rewrite <- Hname. clear Hname.
  set (fid := funnelId (resolved_name cm i)).
  assert (Hother : forall k f, k <> fid ->
            sums_of cm folded (k, f) -> sums_of cm (folded ++ [i]) (k, f)).
  { intros k f Hk. unfold sums_of. cbn [fst snd].
    by rewrite group_snoc_other by (by apply not_eq_sym). }
  destruct (fd_get fd fid) eqn:Hget.
  - apply (fd_alter_Forall_at (sums_of cm folded)); [done | done | | done].
    intros f (Hne & Hs & Hi & Hr & Hc). unfold sums_of. cbn [fst snd] in *.
    rewrite group_snoc_same by done. rewrite !running_total_snoc.
    split; [by destruct (group cm fid folded)|].
    cbn. by rewrite Hs, Hi, Hr, Hc.
  - apply fd_get_None in Hget. rewrite fd_alter_app_new by done.
    apply Forall_app. split.
    + rewrite Forall_forall in Hsums. apply Forall_forall. intros [k f] Hin.
      apply Hother; [|by apply Hsums]. intros ->. apply Hget.
      apply list_elem_of_In in Hin. by apply (in_map fst) in Hin.
    + constructor; [|constructor]. unfold sums_of. cbn [fst snd].
      rewrite group_snoc_same by done.
      rewrite group_absent.
      2:{ intros j Hj Heq. apply Hget. rewrite <- Heq. by apply Hcover. }
      cbn [app]. unfold running_total. cbn. done.
Qed.

Lemma fold_insights_sums (cm : campaign_map) (sd ed : jsstring)
  (rest : list Insight.t) (fd fd' : funnel_data) (folded : list Insight.t) :
  fold_insights cm sd ed fd rest = Returned fd' ->
  Forall (fresh sd ed) fd -> NoDup (map fst fd) ->
  (forall j, In j folded -> In (funnelId (resolved_name cm j)) (map fst fd)) ->
  Forall (sums_of cm folded) fd ->
  Forall (sums_of cm (folded ++ rest)) fd'.
Proof.
  revert fd folded.
  induction rest as [|i rest IH]; intros fd folded Hfold Hfresh Hnodup Hcover Hsums.
  - injection Hfold as <-. by rewrite app_nil_r.
  - cbn [fold_insights] in Hfold.
    destruct (fold_insight cm sd ed fd i) as [fd1|] eqn:Hstep; [|done].
    destruct (fold_insight_inv _ _ _ _ _ _ Hstep Hfresh Hnodup)
      as (Hfresh1 & Hnodup1 & Hkeys1 & name & Hname & Hin).
    replace (folded ++ i :: rest) with ((folded ++ [i]) ++ rest)
      by (by rewrite <- app_assoc).
    apply (IH fd1); try done.
    + intros j [Hj | [<- | []]]%in_app_or.
      * apply Hkeys1. by apply Hcover.
      * unfold resolved_name. by rewrite Hname.
    + by apply (fold_insight_sums cm sd ed fd).
Qed.

Lemma fold_insights_returns (cm : campaign_map) (sd ed : jsstring)
  (data : list Insight.t) (fd : funnel_data) :
  (forall i, In i data -> exists name, campaignName cm i = Value (JStr name)) ->
  exists fd', fold_insights cm sd ed fd data = Returned fd'.
Proof.
  revert fd. induction data as [|i data IH]; intros fd Hdata; [by eexists|].
  cbn [fold_insights]. unfold fold_insight at 1.
  destruct (Hdata i) as [name ->]; [by left|].
  apply IH. intros j Hj. apply Hdata. by right.
Qed.

(** Every returned accumulator carries the running sums of its group. *)
Lemma aggregate_sums (campaigns : list Campaign.t) (data : list Insight.t)
  (sd ed : jsstring) (funnels : list Funnel.t) (f : Funnel.t) :
  aggregate campaigns data sd ed = Returned funnels -> In f funnels ->
  sums_of (build_campaign_map campaigns) data (Funnel.funnel_id f, f).
Proof.
  unfold aggregate. intros Hagg Hf.
  destruct (fold_insights _ sd ed [] data) as [fd|] eqn:Hfold; [|done].
  injection Hagg as <-.
  assert (Hsums : Forall (sums_of (build_campaign_map campaigns) data) fd).
  { apply (fold_insights_sums _ _ _ _ _ _ [] Hfold); try constructor.
    intros j []. }
  destruct (fold_insights_inv _ _ _ _ _ _ Hfold) as (Hfresh & _); [constructor.. |].
  apply in_map_iff in Hf as (g & <- & Hg).
  apply (Permutation_in _ (Object_values_Permutation fd)) in Hg.
  apply in_map_iff in Hg as ([k g'] & <- & Hkg). cbn [snd].
  apply list_elem_of_In in Hkg.
  rewrite Forall_forall in Hsums, Hfresh.
  pose proof (Hsums _ Hkg) as Hs.
  destruct (Hfresh _ Hkg) as (Hid & _). cbn [fst snd] in Hid.
  destruct (finalize_totals g') as (E0 & E1 & E2 & E3 & E4).
  unfold sums_of in *. cbn [fst snd] in *. rewrite E0, E1, E2, E3, E4, Hid. done.
Qed.

Lemma exact_total_cons (field : Insight.t -> jsval) (i : Insight.t)
  (data : list Insight.t) :
  exact_total field (i :: data)
  = default 0 (natural_value (field i)) + exact_total field data.
Proof. done. Qed.

Lemma exact_total_nonneg (field : Insight.t -> jsval) (data : list Insight.t) :
  Forall (fun i => is_Some (natural_value (field i))) data ->
  0 <= exact_total field data.
Proof.
  induction 1 as [|i data [n Hn] _ IH]; [done|].
  rewrite exact_total_cons, Hn. change (default 0 (Some n)) with n.
  destruct (natural_reads _ _ Hn) as (_ & _ & ?). lia.
Qed.

Lemma running_from_exact (field : Insight.t -> jsval) (g : Insight.t -> number)
  (data : list Insight.t) (acc : Z) :
  (forall i n, natural_value (field i) = Some n -> g i = of_Z n /\ 0 <= n) ->
  Forall (fun i => is_Some (natural_value (field i))) data ->
  0 <= acc -> acc + exact_total field data < 2 ^ 53 ->
  fold_left (fun a i => add a (g i)) data (of_Z acc)
  = of_Z (acc + exact_total field data).
Proof.
  intros Hg Hdata. revert acc.
  induction Hdata as [|i data [n Hn] Hdata IH]; intros acc Hacc Hsum.
  - cbn [fold_left]. change (exact_total field []) with 0. by rewrite Z.add_0_r.
  - pose proof (exact_total_nonneg field data Hdata).
    rewrite exact_total_cons, Hn in *. change (default 0 (Some n)) with n in *.
    cbn [fold_left].
    destruct (Hg i n Hn) as [-> Hn0].
    rewrite add_of_Z by lia. rewrite IH by lia. f_equal. lia.
Qed.

Lemma running_total_exact (field : Insight.t -> jsval) (g : Insight.t -> number)
  (data : list Insight.t) :
  (forall i n, natural_value (field i) = Some n -> g i = of_Z n /\ 0 <= n) ->
  Forall (fun i => is_Some (natural_value (field i))) data ->
  exact_total field data < 2 ^ 53 ->
  running_total g data = of_Z (exact_total field data).
Proof.
  intros Hg Hdata Hsum. unfold running_total. change zero with (of_Z 0).
  by rewrite (running_from_exact field).
Qed.

Lemma exact_total_Permutation (field : Insight.t -> jsval) (data data' : list Insight.t) :
  Permutation data data' -> exact_total field data = exact_total field data'.
Proof.
  induction 1; rewrite ?exact_total_cons; lia.
Qed.

Lemma aggregate_returns (campaigns : list Campaign.t) (data : list Insight.t)
  (sd ed : jsstring) :
  (forall i, In i data ->
     exists name, campaignName (build_campaign_map campaigns) i = Value (JStr name)) ->
  exists funnels, aggregate campaigns data sd ed = Returned funnels.
Proof.
  intros Hdata. unfold aggregate.
  destruct (fold_insights_returns (build_campaign_map campaigns) sd ed data [] Hdata)
    as [fd ->].
  by eexists.
Qed.

Lemma aggregate_find (campaigns : list Campaign.t) (data : list Insight.t)
  (sd ed : jsstring) (funnels : list Funnel.t) (i : Insight.t) :
  aggregate campaigns data sd ed = Returned funnels -> In i data ->
  exists f, In f funnels
            /\ Funnel.funnel_id f
               = funnelId (resolved_name (build_campaign_map campaigns) i).
Proof.
  intros Hagg Hi.
  destruct (aggregate_inv _ _ _ _ _ Hagg) as (fd & -> & Hfresh & _ & Hall).
  destruct (Hall i Hi) as (name & Hname & Hin).
  unfold resolved_name. rewrite Hname.
  apply in_map_iff in Hin as ([k g] & Hk & Hkg). cbn [fst] in Hk. subst k.
  exists (finalize g). split.
  - apply in_map.
    apply (Permutation_in _ (Permutation_sym (Object_values_Permutation fd))).
    by apply (in_map snd) in Hkg.
  - destruct (finalize_totals g) as (-> & _).
    rewrite Forall_forall in Hfresh. apply list_elem_of_In in Hkg.
    by destruct (Hfresh _ Hkg) as (? & _).
Qed.

Lemma running_totals_exact (records : list Insight.t) :
  Forall natural_record records ->
  exact_total Insight.spend records < 2 ^ 53 ->
  exact_total Insight.impressions records < 2 ^ 53 ->
  exact_total Insight.reach records < 2 ^ 53 ->
  exact_total Insight.clicks records < 2 ^ 53 ->
  running_total spend_of records = of_Z (exact_total Insight.spend records)
  /\ running_total impressions_of records
     = of_Z (exact_total Insight.impressions records)
  /\ running_total reach_of records = of_Z (exact_total Insight.reach records)
  /\ running_total clicks_of records = of_Z (exact_total Insight.clicks records).
Proof.
  intros Hnat B1 B2 B3 B4.
  repeat split; (apply running_total_exact; [ | | done]);
    try (intros i n Hn; destruct (natural_reads _ _ Hn) as (? & ? & ?); by split);
    (eapply Forall_impl; [exact Hnat|]); intros i (? & ? & ? & ?); done.
Qed.

(** C1, as amended.  Every insight record is folded into the accumulator
    of its funnel id (no record is skipped), and for every returned
    accumulator the amount_spent, impressions, reach and ads_link_clicks
    are the binary64 sums, taken in input order from 0, of
    [parseFloat(spend || 0)], [parseInt(impressions || 0)],
    [parseInt(reach || 0)] and [parseInt(clicks || 0)] over the records
    sharing its funnel id; an absent (or otherwise falsy) field
    contributes zero.  When every field of these records is absent or a
    string of decimal digits and each exact sum is below 2^53, the four
    totals are the exact sums and are the same for every order of the
    input. *)
Theorem funnel_totals_are_running_sums (campaigns : list Campaign.t)
  (data : list Insight.t) (startDateStr endDate : jsstring)
  (funnels : list Funnel.t) :
  aggregate campaigns data startDateStr endDate = Returned funnels ->
  (forall i, In i data ->
     exists f, In f funnels
               /\ In i (group (build_campaign_map campaigns)
                              (Funnel.funnel_id f) data))
  /\ forall f, In f funnels ->
       let records :=
         group (build_campaign_map campaigns) (Funnel.funnel_id f) data in
       records <> []
       /\ Funnel.amount_spent f = running_total spend_of records
       /\ Funnel.impressions f = running_total impressions_of records
       /\ Funnel.reach f = running_total reach_of records
       /\ Funnel.ads_link_clicks f = running_total clicks_of records
       /\ (forall i, In i records ->
             (ToBoolean (Insight.spend i) = false -> spend_of i = zero)
             /\ (ToBoolean (Insight.impressions i) = false ->
                 impressions_of i = zero)
             /\ (ToBoolean (Insight.reach i) = false -> reach_of i = zero)
             /\ (ToBoolean (Insight.clicks i) = false -> clicks_of i = zero))
       /\ (Forall natural_record records ->
           exact_total Insight.spend records < 2 ^ 53 ->
           exact_total Insight.impressions records < 2 ^ 53 ->
           exact_total Insight.reach records < 2 ^ 53 ->
           exact_total Insight.clicks records < 2 ^ 53 ->
           Funnel.amount_spent f = of_Z (exact_total Insight.spend records)
           /\ Funnel.impressions f
              = of_Z (exact_total Insight.impressions records)
           /\ Funnel.reach f = of_Z (exact_total Insight.reach records)
           /\ Funnel.ads_link_clicks f
              = of_Z (exact_total Insight.clicks records)
           /\ forall data', Permutation data data' ->
                exists funnels' f',
                  aggregate campaigns data' startDateStr endDate
                  = Returned funnels'
                  /\ In f' funnels'
                  /\ Funnel.funnel_id f' = Funnel.funnel_id f
                  /\ Funnel.amount_spent f' = Funnel.amount_spent f
                  /\ Funnel.impressions f' = Funnel.impressions f
                  /\ Funnel.reach f' = Funnel.reach f
                  /\ Funnel.ads_link_clicks f' = Funnel.ads_link_clicks f).
Proof.
  intros Hagg. set (cm := build_campaign_map campaigns). split.
  { intros i Hi. destruct (aggregate_find _ _ _ _ _ i Hagg Hi) as (f & Hf & Hid).
    exists f. split; [done|]. by apply group_In. }
  intros f Hf records.
  destruct (aggregate_sums _ _ _ _ _ f Hagg Hf) as (Hne & Hs & Hi & Hr & Hc).
  cbn [fst snd] in *. fold cm in Hne, Hs, Hi, Hr, Hc. fold records in Hne, Hs, Hi, Hr, Hc.
  repeat (split; [done|]). split.
  { intros i _. unfold spend_of, impressions_of, reach_of, clicks_of.
    repeat split; intros Hv; by destruct (falsy_reads_zero _ Hv). }
  intros Hnat B1 B2 B3 B4.
  destruct (running_totals_exact records Hnat B1 B2 B3 B4) as (E1 & E2 & E3 & E4).
  rewrite Hs, Hi, Hr, Hc. repeat (split; [done|]).
  intros data' Hperm.
  destruct (aggregate_inv _ _ _ _ _ Hagg) as (fd & _ & _ & _ & Hall).
  destruct (aggregate_returns campaigns data' startDateStr endDate)
    as [funnels' Hagg'].
  { intros i Hi'. apply (Permutation_in _ (Permutation_sym Hperm)) in Hi'.
    destruct (Hall i Hi') as (name & Hname & _). by exists name. }
  destruct records as [|i0 rest] eqn:Hrec; [done|].
  assert (Hi0 : In i0 (group cm (Funnel.funnel_id f) data))
    by (fold records; rewrite Hrec; by left).
  apply group_In in Hi0 as [Hi0 Hfid].
  destruct (aggregate_find _ _ _ _ _ i0 Hagg' (Permutation_in _ Hperm Hi0))
    as (f' & Hf' & Hid').
  fold cm in Hid'. rewrite Hfid in Hid'.
  exists funnels', f'. repeat (split; [done|]).
  destruct (aggregate_sums _ _ _ _ _ f' Hagg' Hf') as (_ & Hs' & Hi' & Hr' & Hc').
  cbn [fst snd] in *. fold cm in Hs', Hi', Hr', Hc'. rewrite Hid' in Hs', Hi', Hr', Hc'.
  pose proof (group_Permutation cm (Funnel.funnel_id f) _ _ Hperm) as Hgp.
  fold records in Hgp. rewrite Hrec in Hgp.
  rewrite Hs', Hi', Hr', Hc', E1, E2, E3, E4.
  rewrite (exact_total_Permutation Insight.spend _ _ Hgp) in B1 |- *.
  rewrite (exact_total_Permutation Insight.impressions _ _ Hgp) in B2 |- *.
  rewrite (exact_total_Permutation Insight.reach _ _ Hgp) in B3 |- *.
  rewrite (exact_total_Permutation Insight.clicks _ _ Hgp) in B4 |- *.
  apply running_totals_exact; try done. by eapply Permutation_Forall.
Qed.

End GroupTotals.

(** ** The store and the pipeline *)

Lemma upsert_keys_In (row : Funnel.t) (t : table) (k : jsstring * jsstring * jsstring) :
  In k (map Funnel.key (upsert row t)) ->
  k = Funnel.key row \/ In k (map Funnel.key t).
Proof.
  induction t as [|r t IH]; cbn.
  - intros [<- | []]. by left.
  - case_bool_decide as Hk; cbn.
    + intros [<- | Hin]; [by left | by right; right].
    + intros [<- | Hin]; [by right; left |].
      destruct (IH Hin); [by left | by right; right].
Qed.

Lemma upsert_unique (row : Funnel.t) (t : table) :
  unique_keys t -> unique_keys (upsert row t).
Proof.
  unfold unique_keys. induction t as [|r t IH]; cbn; intros Ht.
  - apply NoDup_singleton.
  - apply NoDup_cons in Ht as [Hr Ht]. rewrite list_elem_of_In in Hr.
    case_bool_decide as Hk; cbn; apply NoDup_cons; rewrite list_elem_of_In.
    + rewrite <- Hk. done.
    + split; [|by apply IH]. intros [Heq | Hin]%upsert_keys_In; congruence.
Qed.

Lemma rows_with_absent (k : jsstring * jsstring * jsstring) (t : table) :
  ~ In k (map Funnel.key t) -> rows_with k t = [].
Proof.
  induction t as [|r t IH]; cbn; [done|]. intros Hk.
  case_bool_decide; cbn; [tauto|]. apply IH. tauto.
Qed.

Lemma rows_with_upsert (row : Funnel.t) (t : table) :
  unique_keys t -> rows_with (Funnel.key row) (upsert row t) = [row].
Proof.
  unfold unique_keys. induction t as [|r t IH]; cbn; intros Ht.
  - by rewrite bool_decide_eq_true_2.
  - apply NoDup_cons in Ht as [Hr Ht]. rewrite list_elem_of_In in Hr.
    case_bool_decide as Hk; cbn.
    + rewrite bool_decide_eq_true_2 by done. f_equal.
      apply rows_with_absent. by rewrite <- Hk.
    + rewrite bool_decide_eq_false_2 by done. by apply IH.
Qed.

Lemma rows_without_upsert (row : Funnel.t) (t : table) :
  rows_without (Funnel.key row) (upsert row t) = rows_without (Funnel.key row) t.
Proof.
  unfold rows_without. induction t as [|r t IH]; cbn.
  - by rewrite bool_decide_eq_true_2.
  - case_bool_decide as Hk; cbn.
    + by rewrite bool_decide_eq_true_2.
    + rewrite bool_decide_eq_false_2 by done. cbn. by rewrite IH.
Qed.

Lemma upsert_length (row : Funnel.t) (t : table) :
  (length t <= length (upsert row t))%nat.
Proof.
  induction t as [|r t IH]; cbn; [lia|]. case_bool_decide; cbn; lia.
Qed.

Section PipelineFacts.
Context `{Engine} `{Services}.

Lemma fetch_eq (adAccountId : jsstring) (st : state) :
  fetchFacebookAdData adAccountId st
  = (Returned (fst (fetch_result adAccountId st)),
     snd (fetch_result adAccountId st)).
Proof.
  unfold fetchFacebookAdData, fetch_result, await, the_array, lift.
  unfold try_catch, bind, on_world, ret, throw.
  destruct (window (world st)) as [sd ed]. cbn [world rows fst snd].
  destruct (get_campaigns adAccountId (world st)) as [[|[campaigns|]] w1];
    cbn [world rows fst snd]; try done.
  destruct (get_insights adAccountId (sd, ed) w1) as [[|[data|]] w2];
    cbn [world rows fst snd]; try done.
  by destruct (aggregate campaigns data sd ed).
Qed.

Lemma fetch_members (adAccountId : jsstring) (st st' : state)
  (funnels : list Funnel.t) (f : Funnel.t) :
  fetchFacebookAdData adAccountId st = (Returned funnels, st') ->
  In f funnels ->
  exists g, f = finalize g /\ Funnel.frequency g = zero
            /\ Funnel.link_ctr g = None.
Proof.
  rewrite fetch_eq. intros [= <- _]. unfold fetch_result.
  destruct (get_campaigns _ _) as [[|[campaigns|]] w1]; try done.
  destruct (get_insights _ _ _) as [[|[data|]] w2]; try done.
  cbn [fst]. destruct (aggregate campaigns data _ _) as [out|] eqn:Hagg; [|done].
  by apply aggregate_members with (1 := Hagg).
Qed.

Lemma fetch_error_result (adAccountId : jsstring) (st : state) :
  fetch_error adAccountId st ->
  fst (fetch_result adAccountId st) = []
  /\ rows (snd (fetch_result adAccountId st)) = rows st.
Proof.
  unfold fetch_error, fetch_result.
  destruct (get_campaigns _ _) as [[|[campaigns|]] w1]; try done.
  destruct (get_insights _ _ _) as [[|[data|]] w2]; done.
Qed.

Lemma process_account_active (account : Account.t) (id : jsstring) (st : state) :
  is_inactive account = false -> Account.id account = JStr id ->
  process_account account st
  = saveFunnelData (fst (fetch_result (request_id id) st))
                   (snd (fetch_result (request_id id) st)).
Proof.
  intros Hact Hid. unfold process_account. rewrite Hact, Hid.
  unfold bind. fold (request_id id). by rewrite fetch_eq.
Qed.

Lemma getAdAccounts_eq (st : state) :
  getAdAccounts st
  = (Returned (listed_accounts (fst (get_adaccounts (world st)))),
     {| world := snd (get_adaccounts (world st)); rows := rows st |}).
Proof.
  unfold getAdAccounts, await. unfold try_catch, bind, on_world, ret, throw.
  by destruct (get_adaccounts (world st)) as [[|[accounts|]] w].
Qed.

Lemma processFacebookData_returns (st : state) :
  exists st', processFacebookData st = (Returned tt, st').
Proof.
  unfold processFacebookData, try_catch, ret.
  match goal with |- context [bind ?m ?k st] => destruct (bind m k st) as [[[]|e] st1] end;
    eauto.
Qed.

Lemma save_one_written (f : Funnel.t) (st : state) :
  fst (send_upsert (Funnel.set_is_current_week f true) (world st)) = Written ->
  save_one f st
  = (Returned tt,
     {| world := snd (send_upsert (Funnel.set_is_current_week f true) (world st));
        rows := upsert (Funnel.set_is_current_week f true) (rows st) |}).
Proof.
  unfold save_one, bind, on_world. 
  destruct (send_upsert _ (world st)) as [r w]. cbn. by intros ->.
Qed.

Lemma saveFunnelData_one (f : Funnel.t) (st : state) :
  fst (send_upsert (Funnel.set_is_current_week f true) (world st)) = Written ->
  saveFunnelData [f] st
  = (Returned tt,
     {| world := snd (send_upsert (Funnel.set_is_current_week f true) (world st));
        rows := upsert (Funnel.set_is_current_week f true) (rows st) |}).
Proof.
  intros Hw. unfold saveFunnelData, try_catch. cbn [save_each]. unfold bind.
  by rewrite save_one_written.
Qed.

End PipelineFacts.

Lemma strict_eq_zero_not_gt (x : number) :
  strict_eq x zero = true -> gt x zero = false.
Proof. by destruct x as [[]|[]| |[] m e]. Qed.

Lemma scan_None_inv (name : jsstring) :
  scan name = None ->
  forall pre s, name = pre ++ s -> match_here s = None.
Proof.
  intros Hscan pre. revert name Hscan.
  induction pre as [|c pre IH]; intros name Hscan s ->.
  - destruct s; cbn [app scan] in Hscan; by destruct (match_here _).
  - cbn [app scan] in Hscan. destruct (match_here (c :: pre ++ s)); [done|].
    by apply (IH (pre ++ s)).
Qed.

Section Finalization.
Context `{Engine}.

Lemma finalize_frequency (g : Funnel.t) :
  Funnel.frequency (finalize g)
  = if gt (Funnel.reach g) zero
    then div (Funnel.impressions g) (Funnel.reach g)
    else Funnel.frequency g.
Proof.
  unfold finalize.
  destruct (gt (Funnel.reach g) zero); cbn;
    match goal with |- context [gt ?x zero] => destruct (gt x zero) end; done.
Qed.

Lemma finalize_link_ctr (g : Funnel.t) :
  Funnel.link_ctr (finalize g)
  = if gt (Funnel.impressions g) zero
    then Some (mul (div (Funnel.ads_link_clicks g) (Funnel.impressions g))
                   (of_Z 100))
    else Funnel.link_ctr g.
Proof.
  unfold finalize.
  destruct (gt (Funnel.reach g) zero); cbn;
    match goal with |- context [gt ?x zero] => destruct (gt x zero) end; done.
Qed.

End Finalization.

Section Claims.
Context `{Engine} `{Services}.

(** C4.  Every accumulator that [fetchFacebookAdData] returns has
    frequency = impressions / reach when reach > 0, and frequency = 0
    when reach = 0. *)
Theorem frequency_after_finalization (adAccountId : jsstring) (st st' : state)
  (funnels : list Funnel.t) (f : Funnel.t) :
  fetchFacebookAdData adAccountId st = (Returned funnels, st') ->
  In f funnels ->
  (gt (Funnel.reach f) zero = true ->
   Funnel.frequency f = div (Funnel.impressions f) (Funnel.reach f))
  /\ (strict_eq (Funnel.reach f) zero = true -> Funnel.frequency f = zero).
Proof.
  intros Hfetch Hf.
  destruct (fetch_members _ _ _ _ _ Hfetch Hf) as (g & -> & Hfreq & _).
  destruct (finalize_totals g) as (_ & _ & -> & -> & _).
  rewrite finalize_frequency, Hfreq. split.
  - by intros ->.
  - by intros ->%strict_eq_zero_not_gt.
Qed.

(** C5.  Every accumulator that [fetchFacebookAdData] returns has
    link_ctr = (ads_link_clicks / impressions) * 100 when
    impressions > 0; when impressions = 0, link_ctr is absent or 0. *)
Theorem link_ctr_after_finalization (adAccountId : jsstring) (st st' : state)
  (funnels : list Funnel.t) (f : Funnel.t) :
  fetchFacebookAdData adAccountId st = (Returned funnels, st') ->
  In f funnels ->
  (gt (Funnel.impressions f) zero = true ->
   Funnel.link_ctr f
   = Some (mul (div (Funnel.ads_link_clicks f) (Funnel.impressions f)) (of_Z 100)))
  /\ (strict_eq (Funnel.impressions f) zero = true ->
      Funnel.link_ctr f = None \/ Funnel.link_ctr f = Some zero).
Proof.
  intros Hfetch Hf.
  destruct (fetch_members _ _ _ _ _ Hfetch Hf) as (g & -> & _ & Hctr).
  destruct (finalize_totals g) as (_ & _ & -> & _ & ->).
  rewrite finalize_link_ctr, Hctr. split.
  - by intros ->.
  - intros ->%strict_eq_zero_not_gt. by left.
Qed.

(** C2.  Writing two accumulators with the same FunnelKey, one after the
    other, into a table that satisfies the uniqueness constraint leaves
    exactly one row for that key, equal to the second write (stamped
    is_current_week = true); the keys stay unique, the rows of every
    other key are untouched, and the table does not shrink. *)
Theorem second_write_replaces_first (first second : Funnel.t) (st : state) :
  let row1 := Funnel.set_is_current_week first true in
  let row2 := Funnel.set_is_current_week second true in
  Funnel.key first = Funnel.key second ->
  unique_keys (rows st) ->
  fst (send_upsert row1 (world st)) = Written ->
  fst (send_upsert row2 (snd (send_upsert row1 (world st)))) = Written ->
  exists st1 st2,
    saveFunnelData [first] st = (Returned tt, st1)
    /\ saveFunnelData [second] st1 = (Returned tt, st2)
    /\ rows_with (Funnel.key second) (rows st2) = [row2]
    /\ unique_keys (rows st2)
    /\ rows_without (Funnel.key second) (rows st2)
       = rows_without (Funnel.key second) (rows st)
    /\ (length (rows st) <= length (rows st2))%nat.
Proof.
  intros row1 row2 Hkey Huniq Hw1 Hw2.
  eexists. eexists.
  split; [by apply saveFunnelData_one|].
  split; [by apply saveFunnelData_one|].
  cbn [rows].
  assert (Hk2 : Funnel.key row2 = Funnel.key second) by done.
  assert (Hk1 : Funnel.key row1 = Funnel.key second) by (by rewrite <- Hkey).
  split; [|split; [|split]].
  - rewrite <- Hk2. apply rows_with_upsert. by apply upsert_unique.
  - by do 2 apply upsert_unique.
  - trans (rows_without (Funnel.key second) (upsert row1 (rows st))).
    + rewrite <- Hk2. apply rows_without_upsert.
    + rewrite <- Hk1. apply rows_without_upsert.
  - etrans; [apply (upsert_length row1)|apply upsert_length].
Qed.

(** [POST /sync-facebook-data] never reaches its [catch] clause. *)
Lemma sync_facebook_data_returns (st : state) :
  exists st',
    sync_facebook_data st
    = (Returned {| status := 200; payload := SyncCompleted |}, st').
Proof.
  destruct (processFacebookData_returns st) as [st' Hrun].
  exists st'. unfold sync_facebook_data, try_catch, bind, res_json, ret.
  by rewrite Hrun.
Qed.

(** C7.  When the fetch of an active account meets a transport or API
    error, [fetchFacebookAdData] returns the empty array, nothing is
    written for the account, and the loop goes on with the remaining
    accounts. *)
Theorem fetch_error_is_absorbed (account : Account.t) (id : jsstring)
  (rest : list Account.t) (st : state) :
  is_inactive account = false ->
  Account.id account = JStr id ->
  fetch_error (request_id id) st ->
  exists st',
    fetchFacebookAdData (request_id id) st = (Returned [], st')
    /\ rows st' = rows st
    /\ process_account account st = (Returned tt, st')
    /\ process_accounts (account :: rest) st = process_accounts rest st'.
Proof.
  intros Hact Hid Herr.
  destruct (fetch_error_result _ _ Herr) as [Hnone Hrows].
  exists (snd (fetch_result (request_id id) st)).
  assert (Hacc : process_account account st
                 = (Returned tt, snd (fetch_result (request_id id) st))).
  { rewrite (process_account_active account id) by done. by rewrite Hnone. }
  rewrite fetch_eq, Hnone. repeat split; try done.
  cbn [process_accounts]. unfold bind. by rewrite Hacc.
Qed.

(** C8, as amended.  For an active account whose window contains zero
    insight records, whatever its campaigns, the aggregator returns zero
    accumulators and no write request is sent: the state after the
    account is the state after its two reads. *)
Theorem no_insights_no_rows (account : Account.t) (id : jsstring)
  (campaigns : list Campaign.t) (st : state) (w1 w2 : World) :
  is_inactive account = false ->
  Account.id account = JStr id ->
  get_campaigns (request_id id) (world st) = (Resolved (Some campaigns), w1) ->
  get_insights (request_id id) (window (world st)) w1 = (Resolved (Some []), w2) ->
  aggregate campaigns [] (fst (window (world st))) (snd (window (world st)))
  = Returned []
  /\ fetchFacebookAdData (request_id id) st
     = (Returned [], {| world := w2; rows := rows st |})
  /\ process_account account st
     = (Returned tt, {| world := w2; rows := rows st |}).
Proof.
  intros Hact Hid Hc Hi. split; [done|].
  assert (Hres : fetch_result (request_id id) st
                 = ([], {| world := w2; rows := rows st |})).
  { unfold fetch_result. by rewrite Hc, Hi. }
  split.
  - by rewrite fetch_eq, Hres.
  - rewrite (process_account_active account id) by done. by rewrite Hres.
Qed.

(** C9.  The captured digits are taken verbatim: "Funnel " followed by
    any digit string classifies to that very string.  Two records whose
    names classify to different strings get two accumulators with
    different FunnelKeys, and the returned keys are pairwise distinct; in
    particular "Funnel 007" gives "007" and "Funnel 7" gives "7", which
    differ. *)
Theorem digit_strings_kept_verbatim :
  (forall digits,
      digits <> [] -> forallb is_digit digits = true ->
      funnelId (js "Funnel " ++ digits) = digits)
  /\ (forall campaigns data startDateStr endDate funnels i1 i2 name1 name2,
        aggregate campaigns data startDateStr endDate = Returned funnels ->
        In i1 data -> In i2 data ->
        campaignName (build_campaign_map campaigns) i1 = Value (JStr name1) ->
        campaignName (build_campaign_map campaigns) i2 = Value (JStr name2) ->
        funnelId name1 <> funnelId name2 ->
        NoDup (map Funnel.key funnels)
        /\ exists f1 f2,
            In f1 funnels /\ In f2 funnels
            /\ Funnel.funnel_id f1 = funnelId name1
            /\ Funnel.funnel_id f2 = funnelId name2
            /\ Funnel.key f1 <> Funnel.key f2)
  /\ funnelId (js "Funnel 007") = js "007"
  /\ funnelId (js "Funnel 7") = js "7"
  /\ js "007" <> js "7".
Proof.
  split; [|split; [|by vm_compute]].
  - intros digits Hne Hds. rewrite funnelId_scan.
    rewrite (scan_first _ [] (js "Funnel " ++ digits) digits); [done | done | |].
    + apply match_here_spec. exists (js "Funnel"), (js " "), [].
      rewrite app_nil_r. repeat split; done.
    + cbn [length]. lia.
  - intros campaigns data sd ed funnels i1 i2 name1 name2 Hagg Hi1 Hi2 Hn1 Hn2 Hne.
    destruct (aggregate_inv _ _ _ _ _ Hagg) as (fd & -> & Hfresh & Hnodup & Hall).
    assert (Hkey : forall kf, In kf fd ->
              Funnel.key (finalize (snd kf)) = (sd, ed, fst kf)).
    { intros kf Hkf. rewrite finalize_key. unfold Funnel.key.
      rewrite Forall_forall in Hfresh. apply list_elem_of_In in Hkf.
      by destruct (Hfresh kf Hkf) as (-> & -> & -> & _). }
    assert (Hfind : forall k, In k (map fst fd) ->
              exists f, In f (map finalize (Object_values fd))
                        /\ Funnel.funnel_id f = k
                        /\ Funnel.key f = (sd, ed, k)).
    { intros k ([k' g] & <- & Hkg)%in_map_iff. exists (finalize g).
      split; [|split].
      - apply in_map. apply (Permutation_in _ (Permutation_sym (Object_values_Permutation fd))).
        by apply (in_map snd) in Hkg.
      - destruct (finalize_totals g) as (-> & _).
        rewrite Forall_forall in Hfresh. apply list_elem_of_In in Hkg.
        by destruct (Hfresh _ Hkg) as (? & _).
      - by apply (Hkey (k', g)). }
    split.
    + rewrite map_map.
      rewrite (Permutation_map _ (Object_values_Permutation fd)), map_map.
      rewrite (map_ext_in _ (fun kf => (sd, ed, fst kf))) by exact Hkey.
      rewrite <- (map_map fst (fun k => (sd, ed, k))).
      assert (Hinj : Inj (=) (=) (fun k : jsstring => (sd, ed, k)))
        by (by intros ? ? [= ->]).
      exact (NoDup_fmap_2 (fun k => (sd, ed, k)) _ Hnodup).
    + destruct (Hall i1 Hi1) as (n1 & Hn1' & Hin1).
      destruct (Hall i2 Hi2) as (n2 & Hn2' & Hin2).
      rewrite Hn1 in Hn1'. rewrite Hn2 in Hn2'.
      injection Hn1' as <-. injection Hn2' as <-.
      destruct (Hfind _ Hin1) as (f1 & ? & ? & Hk1).
      destruct (Hfind _ Hin2) as (f2 & ? & ? & Hk2).
      exists f1, f2. repeat split; try done.
      rewrite Hk1, Hk2. by intros [= ?].
Qed.

(** C10.  The account listing never throws: it returns the array of the
    reply, and the empty list when the request is rejected or the reply
    has no array.  The connectivity-check endpoint therefore always
    answers 200 with success true and never takes its 500 branch. *)
Theorem account_listing_is_total (st : state) :
  getAdAccounts st
  = (Returned (listed_accounts (fst (get_adaccounts (world st)))),
     {| world := snd (get_adaccounts (world st)); rows := rows st |})
  /\ listed_accounts (@Rejected Account.t) = []
  /\ listed_accounts (@Resolved Account.t None) = []
  /\ test_facebook_connection st
     = (Returned {| status := 200;
                    payload := Connected
                      (listed_accounts (fst (get_adaccounts (world st)))) |},
        {| world := snd (get_adaccounts (world st)); rows := rows st |})
  /\ success {| status := 200;
                payload := Connected
                  (listed_accounts (fst (get_adaccounts (world st)))) |}
     = true.
Proof.
  repeat split; [apply getAdAccounts_eq|].
  unfold test_facebook_connection, try_catch, bind, res_json, ret.
  by rewrite getAdAccounts_eq.
Qed.

End Claims.

(** ** The properties on concrete runs *)

Import Scenario.

(** C6.  The manual-trigger endpoint answers 200 with the success payload
    on every run: [processFacebookData] catches every error itself and
    returns normally when the listing is empty, so the [catch] clause
    that would answer 500 never runs.  In particular a cycle whose
    account listing is rejected is answered with 200. *)
Theorem manual_sync_answers_200_on_failure :
  (forall (E : Engine) (S : Services) (st : state),
      exists st',
        sync_facebook_data st
        = (Returned {| status := 200; payload := SyncCompleted |}, st'))
  /\ get_adaccounts (Services := services) unreachable = (Rejected, unreachable)
  /\ sync_facebook_data (H := engine) (H0 := services) (start unreachable)
     = (Returned {| status := 200; payload := SyncCompleted |},
        start unreachable).
Proof.
  split; [|split; [reflexivity | vm_compute; reflexivity]].
  intros E S st. apply sync_facebook_data_returns.
Qed.

(** The end-to-end scenario of the specification, with a campaign of
    another funnel in between: the two campaigns of funnel 1 give
    amount_spent 150, impressions 1500, reach 750 and ads_link_clicks
    30, in either order. *)
Lemma funnel_totals_witness :
  exists funnels f,
    aggregate (H := engine) [] [top; plain; mid] (js "2024-03-01") (js "2024-03-08")
    = Returned funnels
    /\ In f funnels
    /\ Funnel.funnel_id f = js "1"
    /\ Funnel.amount_spent f = of_Z 150
    /\ Funnel.impressions f = of_Z 1500
    /\ Funnel.reach f = of_Z 750
    /\ Funnel.ads_link_clicks f = of_Z 30
    /\ exists funnels' f',
        aggregate (H := engine) [] [mid; plain; top]
                  (js "2024-03-01") (js "2024-03-08") = Returned funnels'
        /\ In f' funnels'
        /\ Funnel.funnel_id f' = js "1"
        /\ Funnel.amount_spent f' = of_Z 150.
Proof.
  eexists.
  assert (Hagg : aggregate (H := engine) [] [top; plain; mid]
                   (js "2024-03-01") (js "2024-03-08") = Returned _)
    by (vm_compute; reflexivity).
  destruct (funnel_totals_are_running_sums (H := engine) [] [top; plain; mid]
              (js "2024-03-01") (js "2024-03-08") _ Hagg) as (Hall & Htotals).
  destruct (Hall top) as (f & Hf & Htop); [left; reflexivity|].
  apply group_In in Htop as [_ Hid].
  change (funnelId (resolved_name (build_campaign_map (H := engine) []) top))
    with (js "1") in Hid. symmetry in Hid.
  destruct (Htotals f Hf) as (_ & _ & _ & _ & _ & _ & Hexact).
  rewrite Hid in Hexact.
  destruct Hexact as (E1 & E2 & E3 & E4 & Hperm).
  { repeat constructor; eexists; vm_compute; reflexivity. }
  { vm_compute; reflexivity. }
  { vm_compute; reflexivity. }
  { vm_compute; reflexivity. }
  { vm_compute; reflexivity. }
  destruct (Hperm [mid; plain; top]) as (funnels' & f' & Hagg' & Hf' & Hid' & E1' & _).
  { apply (Permutation_rev [top; plain; mid]). }
  exists f. split; [exact Hagg|]. split; [exact Hf|]. split; [exact Hid|].
  split; [exact E1|]. split; [exact E2|]. split; [exact E3|]. split; [exact E4|].
  exists funnels', f'. split; [exact Hagg'|]. split; [exact Hf'|].
  split; [exact Hid' | rewrite E1'; exact E1].
Defined.

(** A non-numeric spend does not contribute zero: with spends "abc" and
    "50" the total is NaN, not 50.  And the total depends on the order of
    the records: 0.1 + 0.2 + 0.3 and 0.3 + 0.2 + 0.1 differ in the last
    bit. *)
Lemma non_numeric_or_reordered_totals_differ :
  (exists f,
      aggregate (H := engine) [] [garbled; mid] (js "2024-03-01") (js "2024-03-08")
      = Returned [f]
      /\ natural_value (Insight.spend mid) = Some 50
      /\ Funnel.amount_spent f = NaN
      /\ Funnel.amount_spent f <> of_Z (0 + 50))
  /\ (exists f f',
        aggregate (H := engine) [] [dime; fifth; third]
                  (js "2024-03-01") (js "2024-03-08") = Returned [f]
        /\ aggregate (H := engine) [] [third; fifth; dime]
                     (js "2024-03-01") (js "2024-03-08") = Returned [f']
        /\ Permutation [dime; fifth; third] [third; fifth; dime]
        /\ Funnel.amount_spent f <> Funnel.amount_spent f').
Proof.
  split.
  - eexists. split; [vm_compute; reflexivity|].
    split; [vm_compute; reflexivity|]. split; [reflexivity|].
    vm_compute. discriminate.
  - eexists. eexists. split; [vm_compute; reflexivity|].
    split; [vm_compute; reflexivity|]. split.
    + apply (Permutation_rev [dime; fifth; third]).
    + vm_compute. discriminate.
Qed.

(** The leftmost match of "Spring Funnel 3 Retargeting" starts after
    "Spring "; "Brand Awareness" has no match. *)
Lemma classification_witness :
  funnelId (js "Spring Funnel 3 Retargeting") = js "3"
  /\ funnelId (js "Brand Awareness") = js "unknown".
Proof.
  destruct classification_by_funnel_token as (Hfound & Hnone & _).
  split.
  - apply (Hfound (js "Spring Funnel 3 Retargeting") (js "Spring ")
                  (js "Funnel 3 Retargeting") (js "3")).
    + reflexivity.
    + exists (js "Funnel"), (js " "), (js " Retargeting").
      repeat split; try reflexivity; try discriminate.
      intros c rest' [= <- _]. reflexivity.
    + intros pre' s' digits' Heq Hlen Htok.
      apply match_here_spec in Htok.
      assert (Hs : s' = drop (length pre') (js "Spring Funnel 3 Retargeting"))
        by (rewrite Heq; symmetry; apply drop_app_length).
      subst s'. change (length (js "Spring ")) with 7%nat in Hlen.
      revert Hlen Htok. generalize (length pre') as n. intros n Hlen Htok.
      do 7 (destruct n as [|n]; [vm_compute in Htok; discriminate|]).
      lia.
  - apply Hnone. intros pre s digits Heq Htok.
    apply match_here_spec in Htok.
    rewrite (scan_None_inv (js "Brand Awareness") eq_refl pre s Heq) in Htok.
    discriminate.
Defined.

(** The end-to-end scenario has reach 750 > 0; a record without reach
    leaves reach = 0 and frequency = 0. *)
Lemma frequency_witness :
  (exists f st',
      fetchFacebookAdData (H := engine) (H0 := services) (js "act_1") (start both)
      = (Returned [f], st')
      /\ Funnel.frequency f = div (Funnel.impressions f) (Funnel.reach f))
  /\ (exists f st',
      fetchFacebookAdData (H := engine) (H0 := services) (js "act_1") (start dark)
      = (Returned [f], st')
      /\ Funnel.frequency f = zero).
Proof.
  split.
  - eexists. eexists. split; [vm_compute; reflexivity|].
    lazymatch goal with
    | |- Funnel.frequency ?f = _ =>
        refine (proj1 (frequency_after_finalization (H := engine) (H0 := services)
                         (js "act_1") (start both) _ [f] f _ _) _)
    end; [vm_compute; reflexivity | left; reflexivity | vm_compute; reflexivity].
  - eexists. eexists. split; [vm_compute; reflexivity|].
    lazymatch goal with
    | |- Funnel.frequency ?f = _ =>
        refine (proj2 (frequency_after_finalization (H := engine) (H0 := services)
                         (js "act_1") (start dark) _ [f] f _ _) _)
    end; [vm_compute; reflexivity | left; reflexivity | vm_compute; reflexivity].
Defined.

(** The end-to-end scenario has impressions 1500 > 0; a record without
    impressions leaves link_ctr absent. *)
Lemma link_ctr_witness :
  (exists f st',
      fetchFacebookAdData (H := engine) (H0 := services) (js "act_1") (start both)
      = (Returned [f], st')
      /\ Funnel.link_ctr f
         = Some (mul (div (Funnel.ads_link_clicks f) (Funnel.impressions f))
                     (of_Z 100)))
  /\ (exists f st',
      fetchFacebookAdData (H := engine) (H0 := services) (js "act_1") (start dark)
      = (Returned [f], st')
      /\ (Funnel.link_ctr f = None \/ Funnel.link_ctr f = Some zero)).
Proof.
  split.
  - eexists. eexists. split; [vm_compute; reflexivity|].
    lazymatch goal with
    | |- Funnel.link_ctr ?f = _ =>
        refine (proj1 (link_ctr_after_finalization (H := engine) (H0 := services)
                         (js "act_1") (start both) _ [f] f _ _) _)
    end; [vm_compute; reflexivity | left; reflexivity | vm_compute; reflexivity].
  - eexists. eexists. split; [vm_compute; reflexivity|].
    lazymatch goal with
    | |- Funnel.link_ctr ?f = _ \/ _ =>
        refine (proj2 (link_ctr_after_finalization (H := engine) (H0 := services)
                         (js "act_1") (start dark) _ [f] f _ _) _)
    end; [vm_compute; reflexivity | left; reflexivity | vm_compute; reflexivity].
Defined.

(** Two writes for funnel 1 into a table that holds a row of funnel 2. *)
Lemma second_write_witness :
  exists st1 st2,
    saveFunnelData (H0 := services) [early]
      (state_of both [other]) = (Returned tt, st1)
    /\ saveFunnelData (H0 := services) [late] st1 = (Returned tt, st2)
    /\ rows_with (Funnel.key late) (rows st2)
       = [Funnel.set_is_current_week late true]
    /\ rows_without (Funnel.key late) (rows st2) = [other].
Proof.
  destruct (second_write_replaces_first (H0 := services) early late
              (state_of both [other]))
    as (st1 & st2 & H1 & H2 & H3 & _ & H4 & _).
  { reflexivity. }
  { repeat constructor; vm_compute; set_solver. }
  { reflexivity. }
  { reflexivity. }
  exists st1, st2. repeat (split; [assumption|]). exact H4.
Defined.

(** The campaign request of the first of two accounts is rejected. *)
Lemma fetch_error_witness :
  exists st',
    fetchFacebookAdData (H := engine) (H0 := services) (js "act_1") (start offline)
    = (Returned [], st')
    /\ rows st' = []
    /\ process_accounts (H := engine) (H0 := services) [account; account] (start offline)
       = process_accounts (H := engine) (H0 := services) [account] st'.
Proof.
  destruct (fetch_error_is_absorbed (H := engine) (H0 := services)
              account (js "act_1") [account] (start offline))
    as (st' & H1 & H2 & _ & H4).
  { reflexivity. }
  { reflexivity. }
  { vm_compute. exact I. }
  exists st'. split; [exact H1|]. split; [exact H2 | exact H4].
Defined.

(** One listed campaign, no insight record: nothing is returned and
    nothing is written. *)
Lemma no_insights_witness :
  fetchFacebookAdData (H := engine) (H0 := services) (js "act_1") (start quiet)
  = (Returned [], start quiet)
  /\ process_account (H := engine) (H0 := services) account (start quiet)
     = (Returned tt, start quiet).
Proof.
  destruct (no_insights_no_rows (H := engine) (H0 := services)
              account (js "act_1") [listed] (start quiet) quiet quiet)
    as (_ & H1 & H2).
  { reflexivity. }
  { reflexivity. }
  { reflexivity. }
  { reflexivity. }
  split; [exact H1 | exact H2].
Defined.

(** Zero campaigns do not give zero accumulators: with an empty campaign
    list and one insight record, one accumulator is returned and one row
    is written. *)
Lemma insights_without_campaigns_are_written :
  get_campaigns (Services := services) (js "act_1") unlisted
  = (Resolved (Some []), unlisted)
  /\ exists f,
      fetchFacebookAdData (H := engine) (H0 := services) (js "act_1") (start unlisted)
      = (Returned [f], start unlisted)
      /\ process_account (H := engine) (H0 := services) account (start unlisted)
         = (Returned tt,
            state_of unlisted [Funnel.set_is_current_week f true]).
Proof.
  split; [reflexivity|]. eexists. split; vm_compute; reflexivity.
Qed.

(** "Funnel 007" and "Funnel 7" are kept apart. *)
Lemma verbatim_digits_witness :
  funnelId (js "Funnel " ++ js "007") = js "007"
  /\ exists funnels,
      aggregate (H := engine) [] [padded; plain] (js "2024-03-01") (js "2024-03-08")
      = Returned funnels
      /\ NoDup (map Funnel.key funnels)
      /\ exists f1 f2,
          In f1 funnels /\ In f2 funnels
          /\ Funnel.funnel_id f1 = js "007" /\ Funnel.funnel_id f2 = js "7".
Proof.
  destruct (digit_strings_kept_verbatim (H := engine)) as (Hverbatim & Hdistinct & _).
  split.
  - apply Hverbatim; [discriminate | reflexivity].
  - eexists. split; [vm_compute; reflexivity|].
    lazymatch goal with
    | |- NoDup (map Funnel.key ?out) /\ _ =>
        destruct (Hdistinct [] [padded; plain] (js "2024-03-01") (js "2024-03-08")
                    out padded plain (js "Funnel 007") (js "Funnel 7"))
          as (Hnodup & f1 & f2 & Hin1 & Hin2 & Hid1 & Hid2 & _)
    end.
    + vm_compute; reflexivity.
    + left; reflexivity.
    + right; left; reflexivity.
    + reflexivity.
    + reflexivity.
    + vm_compute. discriminate.
    + split; [exact Hnodup|]. exists f1, f2.
      split; [exact Hin1|]. split; [exact Hin2|]. split; [exact Hid1 | exact Hid2].
Defined.

(* ===================================================================== *)
(** * Further properties of the pipeline *)
(* ===================================================================== *)

(** ** The loop over the accounts *)

Lemma starts_with_Some (p s rest : jsstring) :
  starts_with p s = Some rest -> s = p ++ rest.
Proof.
  revert s. induction p as [|a p IH]; intros s; cbn.
  - by intros [= ->].
  - destruct s as [|c s]; [done|].
    destruct (a =? c)%N eqn:Hac; [|done].
    apply N.eqb_eq in Hac as ->. intros Hs. by rewrite (IH s Hs).
Qed.

Lemma replace_first_absent (p r s : jsstring) :
  (forall pre post, s <> pre ++ p ++ post) -> replace_first p r s = s.
Proof.
  induction s as [|c s IH]; intros Habs.
  - cbn. destruct (starts_with p []) as [rest|] eqn:Hs; [|done].
    apply starts_with_Some in Hs. by destruct (Habs [] rest).
  - cbn [replace_first]. destruct (starts_with p (c :: s)) as [rest|] eqn:Hs.
    + apply starts_with_Some in Hs. by destruct (Habs [] rest).
    + f_equal. apply IH. intros pre post ->. by apply (Habs (c :: pre) post).
Qed.

Section Orchestration.
Context `{Engine} `{Services}.
Local Open Scope js_scope.

(** X1.  An account whose status is not the number 1 is skipped: no
    request is sent and nothing is written for it, and the cycle runs as
    if the account were not in the listing. *)
Theorem inactive_accounts_are_skipped (before after : list Account.t)
  (account : Account.t) (st : state) :
  is_inactive account = true ->
  process_account account st = (Returned tt, st)
  /\ process_accounts (before ++ account :: after) st
     = process_accounts (before ++ after) st.
Proof.
  intros Hin.
  assert (Hone : forall st0, process_account account st0 = (Returned tt, st0)).
  { intros st0. unfold process_account. by rewrite Hin. }
  split; [apply Hone|]. revert st.
  induction before as [|a before IH]; intros st; cbn [app process_accounts].
  - unfold bind. by rewrite Hone.
  - unfold bind. destruct (process_account a st) as [[[]|e] st1]; [apply IH | done].
Qed.

(** X2.  When the listing is empty (no account, a rejected request, or a
    reply without the array) the cycle returns after the listing request:
    no further request is sent and the table is unchanged. *)
Theorem cycle_ends_after_empty_listing (st : state) :
  listed_accounts (fst (get_adaccounts (world st))) = [] ->
  processFacebookData st
  = (Returned tt,
     {| world := snd (get_adaccounts (world st)); rows := rows st |}).
Proof.
  intros Hnone. unfold processFacebookData, try_catch, bind.
  by rewrite getAdAccounts_eq, Hnone.
Qed.

(** X3.  An active account whose id is not a string makes
    [account.id.replace] throw: the loop stops there, the accounts after
    it are not processed, and the cycle still returns normally. *)
Theorem account_without_id_ends_the_cycle (account : Account.t)
  (rest : list Account.t) (st : state) :
  is_inactive account = false ->
  (forall id, Account.id account <> JStr id) ->
  process_accounts (account :: rest) st = (Thrown TypeError, st)
  /\ (listed_accounts (fst (get_adaccounts (world st))) = account :: rest ->
      processFacebookData st
      = (Returned tt,
         {| world := snd (get_adaccounts (world st)); rows := rows st |})).
Proof.
  intros Hact Hid.
  assert (Hone : forall st0, process_account account st0 = (Thrown TypeError, st0)).
  { intros st0. unfold process_account. rewrite Hact.
    destruct (Account.id account) as [| | | |id]; try done. by destruct (Hid id). }
  assert (Hall : forall st0,
            process_accounts (account :: rest) st0 = (Thrown TypeError, st0)).
  { intros st0. cbn [process_accounts]. unfold bind. by rewrite Hone. }
  split; [apply Hall|].
  intros Hlist. unfold processFacebookData, try_catch, bind.
  by rewrite getAdAccounts_eq, Hlist, Hall.
Qed.

(** X4.  The id under which an active account is fetched carries the
    prefix "act_" exactly once, whether the listed id starts with the
    prefix or does not contain it at all. *)
Theorem account_is_requested_with_one_prefix (account : Account.t)
  (id bare : jsstring) (st : state) :
  is_inactive account = false ->
  Account.id account = JStr id ->
  id = js "act_" ++ bare
  \/ (id = bare /\ forall pre post, bare <> pre ++ js "act_" ++ post) ->
  request_id id = js "act_" ++ bare
  /\ process_account account st
     = (funnelData <- fetchFacebookAdData (js "act_" ++ bare) ;;
        saveFunnelData funnelData) st.
Proof.
  intros Hact Hid Hshape.
  assert (Hreq : request_id id = js "act_" ++ bare).
  { unfold request_id. f_equal. destruct Hshape as [-> | [-> Habs]].
    - destruct bare; reflexivity.
    - by apply replace_first_absent. }
  split; [done|].
  unfold process_account. rewrite Hact, Hid. fold (request_id id). by rewrite Hreq.
Qed.

End Orchestration.

(** ** The name of a record *)

Lemma map_set_own_other (m : campaign_map) (k k' : jsstring) (v : jsval) :
  k' <> k -> own (map_set m k' v) !! k = own m !! k.
Proof.
  intros Hk. unfold map_set.
  destruct (bool_decide (k' = js "__proto__") && has_prototype m).
  - by destruct v.
  - cbn. by rewrite lookup_insert_ne.
Qed.

Lemma map_set_own_same (m : campaign_map) (k : jsstring) (v : jsval) :
  k <> js "__proto__" -> own (map_set m k v) !! k = Some v.
Proof.
  intros Hk. unfold map_set. rewrite bool_decide_eq_false_2 by done.
  cbn. by rewrite lookup_insert_eq.
Qed.

Lemma scan_Some_inv (name digits : jsstring) :
  scan name = Some digits ->
  exists pre s, name = pre ++ s /\ match_here s = Some digits.
Proof.
  induction name as [|c name IH]; cbn [scan].
  - destruct (match_here []) eqn:Hm; [|done]. intros [= <-]. by exists [], [].
  - destruct (match_here (c :: name)) as [ds|] eqn:Hm.
    + intros [= <-]. by exists [], (c :: name).
    + intros Hs. destruct (IH Hs) as (pre & s & -> & Hm').
      by exists (c :: pre), s.
Qed.

(** X9.  The key of an accumulator is the literal "unknown" or a
    non-empty string of digits.  It is therefore never the name of a
    property that [funnelData] inherits from its prototype, so the test
    [!funnelData[funnelId]] of line 114 only ever sees accumulators. *)
Theorem funnel_key_is_unknown_or_digits (campaignName : jsstring) :
  (funnelId campaignName = js "unknown"
   \/ (funnelId campaignName <> []
       /\ forallb is_digit (funnelId campaignName) = true))
  /\ ~ In (funnelId campaignName) inherited_names.
Proof.
  assert (Hcases : funnelId campaignName = js "unknown"
                   \/ (funnelId campaignName <> []
                       /\ forallb is_digit (funnelId campaignName) = true)).
  { rewrite funnelId_scan. destruct (scan campaignName) as [ds|] eqn:Hscan.
    - right. change (default (js "unknown") (Some ds)) with ds.
      destruct (scan_Some_inv _ _ Hscan) as (pre & s & _ & Hm).
      apply match_here_spec in Hm as (tok & sp & rest & _ & _ & _ & Hne & Hd & _).
      done.
    - by left. }
  split; [done|]. intros Hin.
  destruct Hcases as [Hu | [Hne Hd]].
  - rewrite Hu in Hin. revert Hin. vm_compute.
    intros Hin. repeat (destruct Hin as [Hin | Hin]; [discriminate Hin|]). done.
  - revert Hin. unfold inherited_names. cbn [map]. intros Hin.
    repeat (destruct Hin as [Hin | Hin];
            [rewrite <- Hin in Hd; by vm_compute in Hd|]).
    done.
Qed.

Section Names.
Context `{Engine}.

Lemma build_from_keeps (campaigns : list Campaign.t) (m : campaign_map)
  (k : jsstring) :
  (forall c, In c campaigns -> campaign_key c <> k) ->
  own (fold_left (fun m c => map_set m (ToString (Campaign.id c)) (Campaign.name c))
                 campaigns m) !! k
  = own m !! k.
Proof.
  revert m. induction campaigns as [|c campaigns IH]; intros m Hk; [done|].
  cbn [fold_left]. rewrite IH by (intros c' Hc'; apply Hk; by right).
  apply map_set_own_other. apply Hk. by left.
Qed.

(** X5.  A record without a name of its own takes the name of the last
    campaign of the list that has its campaign id, and "Unknown Campaign"
    when that campaign has no name either. *)
Theorem missing_name_is_taken_from_the_campaign_list
  (before after : list Campaign.t) (campaign : Campaign.t) (insight : Insight.t) :
  ToBoolean (Insight.campaign_name insight) = false ->
  insight_key insight = campaign_key campaign ->
  campaign_key campaign <> js "__proto__" ->
  (forall c, In c after -> campaign_key c <> campaign_key campaign) ->
  campaignName (build_campaign_map (before ++ campaign :: after)) insight
  = Value (or_else (Campaign.name campaign) (JStr (js "Unknown Campaign"))).
Proof.
  intros Hname Hkey Hproto Hlast. unfold campaignName. rewrite Hname.
  fold (insight_key insight). rewrite Hkey.
  unfold build_campaign_map. rewrite fold_left_app. cbn [fold_left].
  unfold map_get. rewrite build_from_keeps by done.
  fold (campaign_key campaign). by rewrite map_set_own_same.
Qed.

(** X6.  A record without a name whose campaign id is not in the list
    (and is not the name of an inherited property) is named "Unknown
    Campaign" and is counted in the accumulator "unknown". *)
Theorem unlisted_campaign_is_unknown (campaigns : list Campaign.t)
  (insight : Insight.t) :
  ToBoolean (Insight.campaign_name insight) = false ->
  (forall c, In c campaigns -> campaign_key c <> insight_key insight) ->
  ~ In (insight_key insight) inherited_names ->
  campaignName (build_campaign_map campaigns) insight
  = Value (JStr (js "Unknown Campaign"))
  /\ funnelId (resolved_name (build_campaign_map campaigns) insight)
     = js "unknown".
Proof.
  intros Hname Hkeys Hproto.
  assert (Hres : campaignName (build_campaign_map campaigns) insight
                 = Value (JStr (js "Unknown Campaign"))).
  { unfold campaignName. rewrite Hname. fold (insight_key insight).
    unfold map_get, build_campaign_map. rewrite build_from_keeps by done.
    cbn [own empty_map]. rewrite lookup_empty.
    rewrite (bool_decide_eq_false_2 (insight_key insight ∈ inherited_names))
      by (by rewrite list_elem_of_In).
    by rewrite andb_false_r. }
  split; [done|]. unfold resolved_name. rewrite Hres. by vm_compute.
Qed.

Lemma fold_insights_throws (cm : campaign_map) (sd ed : jsstring)
  (data : list Insight.t) (fd : funnel_data) (i : Insight.t) :
  In i data -> ~ has_name cm i ->
  fold_insights cm sd ed fd data = Thrown TypeError.
Proof.
  revert fd. induction data as [|j data IH]; intros fd Hi Hbad; [done|].
  cbn [fold_insights]. unfold fold_insight at 1.
  destruct (campaignName cm j) as [[| | | |name]|] eqn:Hj; try done.
  apply IH; [|done]. destruct Hi as [-> | Hi]; [|done].
  destruct Hbad. by exists name.
Qed.

(** X7.  When every record carries a name of its own, the result of the
    aggregation does not depend on the campaign list. *)
Theorem named_records_ignore_the_campaign_list
  (campaigns campaigns' : list Campaign.t) (data : list Insight.t)
  (startDateStr endDate : jsstring) :
  (forall i, In i data -> ToBoolean (Insight.campaign_name i) = true) ->
  aggregate campaigns data startDateStr endDate
  = aggregate campaigns' data startDateStr endDate.
Proof.
  intros Hdata. unfold aggregate.
  assert (Hfold : forall fd,
            fold_insights (build_campaign_map campaigns) startDateStr endDate fd data
            = fold_insights (build_campaign_map campaigns') startDateStr endDate fd data).
  { induction data as [|i data IH]; intros fd; [done|].
    cbn [fold_insights]. unfold fold_insight, campaignName.
    rewrite (Hdata i) by (by left).
    destruct (Insight.campaign_name i) as [| | | |name]; try done.
    apply IH. intros j Hj. apply Hdata. by right. }
  by rewrite Hfold.
Qed.

End Names.

(** ** The returned accumulators *)

Lemma add_NaN_r (x : number) : add x NaN = NaN.
Proof. by destruct x as [[]|[]| |]. Qed.

Lemma running_from_NaN (g : Insight.t -> number) (data : list Insight.t) :
  fold_left (fun acc i => add acc (g i)) data NaN = NaN.
Proof. induction data as [|i data IH]; [done|]. cbn [fold_left]. apply IH. Qed.

Lemma running_total_NaN (g : Insight.t -> number) (data : list Insight.t)
  (i : Insight.t) :
  In i data -> g i = NaN -> running_total g data = NaN.
Proof.
  unfold running_total. generalize zero as acc.
  induction data as [|j data IH]; intros acc Hi Hg; [done|].
  cbn [fold_left]. destruct Hi as [-> | Hi]; [|by apply IH].
  rewrite Hg, add_NaN_r. apply running_from_NaN.
Qed.

Lemma running_total_zero (g : Insight.t -> number) (data : list Insight.t) :
  (forall i, In i data -> g i = zero) -> running_total g data = zero.
Proof.
  unfold running_total. induction data as [|j data IH]; intros Hg; [done|].
  cbn [fold_left]. rewrite (Hg j) by (by left).
  change (add zero zero) with zero. apply IH. intros i Hi. apply Hg. by right.
Qed.

Lemma parseInt_leading_digits (ds rest : jsstring) (c : N) :
  ds <> [] -> forallb is_digit ds = true -> is_digit c = false ->
  (ds = js "0" -> c <> 120%N /\ c <> 88%N) ->
  parseInt_string (ds ++ c :: rest) = of_Z (digits_value ds).
Proof.
  intros Hne Hds Hc Hx. destruct ds as [|d r]; [done|].
  pose proof Hds as Hall. cbn [forallb] in Hds.
  apply andb_true_iff in Hds as [Hd Hr].
  unfold parseInt_string. cbn [app]. rewrite sign_of_digits by done.
  assert (Hspan : span is_digit (d :: r ++ c :: rest) = (d :: r, c :: rest)).
  { apply (span_all is_digit (d :: r) (c :: rest)); [done|].
    by intros c' r' [= <- _]. }
  assert (Hsel : radix_digits (d :: r ++ c :: rest)
                 = (d :: r, digits_value (d :: r))).
  { unfold radix_digits. rewrite Hspan. cbn [fst].
    destruct r as [|x r0].
    - cbn [app].
      destruct (N.eq_dec d 48%N) as [-> | Hd0].
      + destruct (Hx eq_refl) as [H120 H88].
        rewrite (proj2 (N.eqb_neq c 120) H120), (proj2 (N.eqb_neq c 88) H88). done.
      + apply digit_cases in Hd. cbn in Hd.
        repeat destruct Hd as [<- | Hd]; done.
    - cbn [app]. cbn [forallb] in Hr. apply andb_true_iff in Hr as [Hx' _].
      assert (((x =? 120) || (x =? 88))%N = false) as Hx''.
      { unfold is_digit in Hx'. N_cases. }
      apply digit_cases in Hd. cbn in Hd.
      repeat destruct Hd as [<- | Hd]; try done; by rewrite ?Hx''. }
  rewrite Hsel.
  pose proof (digits_value_nonneg (d :: r)).
  destruct (digits_value (d :: r)); [done | done | lia].
Qed.

Lemma insert_sorted_Sorted {A} (i : Z) (x : A) (l : list (Z * A)) :
  StronglySorted Z.le (map fst l) ->
  StronglySorted Z.le (map fst (insert_sorted i x l)).
Proof.
  induction l as [|[j y] l IH]; cbn; intros Hl.
  - repeat constructor.
  - apply StronglySorted_inv in Hl as [Hl Hj].
    destruct (i <? j) eqn:Hij.
    + cbn. constructor; [by constructor|].
      apply Z.ltb_lt in Hij. constructor; [lia|].
      eapply Forall_impl; [exact Hj|]. cbn. intros; lia.
    + cbn. constructor; [by apply IH|].
      apply Z.ltb_ge in Hij.
      rewrite (Permutation_map fst (insert_sorted_Permutation i x l)).
      cbn. by constructor.
Qed.

Lemma indexed_properties_spec (fd : funnel_data) :
  StronglySorted Z.le (map fst (indexed_properties fd))
  /\ forall i f, In (i, f) (indexed_properties fd) ->
       exists k, In (k, f) fd /\ array_index k = Some i.
Proof.
  unfold indexed_properties.
  assert (Hgen : forall acc : list (Z * Funnel.t),
    StronglySorted Z.le (map fst acc) ->
    let out := fold_left (fun acc kf =>
                 match array_index (fst kf) with
                 | Some i => insert_sorted i (snd kf) acc
                 | None => acc
                 end) fd acc in
    StronglySorted Z.le (map fst out)
    /\ forall i f, In (i, f) out ->
         In (i, f) acc \/ exists k, In (k, f) fd /\ array_index k = Some i).
  { induction fd as [|[k g] fd IH]; intros acc Hacc; cbn [fold_left fst snd].
    - split; [done | by left].
    - destruct (array_index k) as [i|] eqn:Hk.
      + destruct (IH (insert_sorted i g acc)) as [Hs Hin];
          [by apply insert_sorted_Sorted|].
        split; [done|]. intros j f Hjf.
        destruct (Hin j f Hjf) as [Hacc' | (k' & Hk' & Hidx)].
        * apply (Permutation_in _ (insert_sorted_Permutation i g acc)) in Hacc'.
          destruct Hacc' as [[= <- <-] | ?]; [|by left].
          right. exists k. split; [by left | done].
        * right. exists k'. split; [by right | done].
      + destruct (IH acc Hacc) as [Hs Hin]. split; [done|].
        intros j f Hjf. destruct (Hin j f Hjf) as [? | (k' & Hk' & Hidx)];
          [by left|]. right. exists k'. split; [by right | done]. }
  destruct (Hgen [] (SSorted_nil _)) as [Hs Hin]. split; [done|].
  intros i f Hif. by destruct (Hin i f Hif) as [[] | ?].
Qed.

Lemma finalize_labels (g : Funnel.t) :
  Funnel.funnel_name (finalize g) = Funnel.funnel_name g
  /\ Funnel.start_date (finalize g) = Funnel.start_date g
  /\ Funnel.end_date (finalize g) = Funnel.end_date g
  /\ Funnel.is_current_week (finalize g) = Funnel.is_current_week g
  /\ Funnel.campaigns (finalize g) = None.
Proof.
  unfold finalize.
  destruct (gt (Funnel.reach g) zero); cbn;
    match goal with |- context [gt ?x zero] => destruct (gt x zero) end; done.
Qed.

Section Accumulators.
Context `{Engine}.

Lemma fold_insights_labelled (cm : campaign_map) (sd ed : jsstring)
  (data : list Insight.t) (fd fd' : funnel_data) :
  fold_insights cm sd ed fd data = Returned fd' ->
  Forall labelled fd -> Forall labelled fd'.
Proof.
  revert fd. induction data as [|i data IH]; intros fd Hfold Hfd.
  - by injection Hfold as <-.
  - cbn [fold_insights] in Hfold.
    destruct (fold_insight cm sd ed fd i) as [fd1|] eqn:Hstep; [|done].
    apply (IH fd1 Hfold). unfold fold_insight in Hstep.
    destruct (campaignName cm i) as [[| | | |name]|]; try done.
    injection Hstep as <-.
    apply fd_alter_Forall; [done|].
    destruct (fd_get fd (funnelId name)); [done|].
    apply Forall_app. split; [done|]. by repeat constructor.
Qed.

Lemma aggregate_properties (campaigns : list Campaign.t) (data : list Insight.t)
  (sd ed : jsstring) (funnels : list Funnel.t) (f : Funnel.t) :
  aggregate campaigns data sd ed = Returned funnels -> In f funnels ->
  exists k g, f = finalize g /\ labelled (k, g) /\ fresh sd ed (k, g).
Proof.
  unfold aggregate. intros Hagg Hf.
  destruct (fold_insights _ sd ed [] data) as [fd|] eqn:Hfold; [|done].
  injection Hagg as <-.
  assert (Hlab : Forall labelled fd)
    by (apply (fold_insights_labelled _ _ _ _ _ _ Hfold); constructor).
  destruct (fold_insights_inv _ _ _ _ _ _ Hfold) as (Hfresh & _); [constructor.. |].
  apply in_map_iff in Hf as (g & <- & Hg).
  apply (Permutation_in _ (Object_values_Permutation fd)) in Hg.
  apply in_map_iff in Hg as ([k g'] & <- & Hkg). cbn [snd].
  apply list_elem_of_In in Hkg.
  rewrite Forall_forall in Hlab, Hfresh.
  exists k, g'. split; [done|]. split; [by apply Hlab | by apply Hfresh].
Qed.

(** X10.  Every returned accumulator is named "Funnel #" followed by its
    funnel id, carries the two dates of the window, has lost its
    campaigns array and is not yet stamped with is_current_week. *)
Theorem accumulators_are_labelled (campaigns : list Campaign.t)
  (data : list Insight.t) (startDateStr endDate : jsstring)
  (funnels : list Funnel.t) (f : Funnel.t) :
  aggregate campaigns data startDateStr endDate = Returned funnels ->
  In f funnels ->
  Funnel.funnel_name f = js "Funnel #" ++ Funnel.funnel_id f
  /\ Funnel.start_date f = startDateStr
  /\ Funnel.end_date f = endDate
  /\ Funnel.campaigns f = None
  /\ Funnel.is_current_week f = None.
Proof.
  intros Hagg Hf.
  destruct (aggregate_properties _ _ _ _ _ f Hagg Hf)
    as (k & g & -> & (Hname & Hweek) & (Hid & Hsd & Hed & _)).
  cbn [fst snd] in *.
  destruct (finalize_labels g) as (-> & -> & -> & -> & ->).
  destruct (finalize_totals g) as (-> & _).
  rewrite Hname, Hid, Hsd, Hed, Hweek. done.
Qed.

(** X11.  [Object.values] returns the accumulators whose funnel id is an
    array index first, in ascending numeric order, and the others (such
    as "unknown" and ids with leading zeros) after them. *)
Theorem accumulators_come_in_key_order (campaigns : list Campaign.t)
  (data : list Insight.t) (startDateStr endDate : jsstring)
  (funnels : list Funnel.t) :
  aggregate campaigns data startDateStr endDate = Returned funnels ->
  exists indexed named indices,
    funnels = indexed ++ named
    /\ map index_of indexed = map Some indices
    /\ StronglySorted Z.le indices
    /\ Forall (fun f => index_of f = None) named.
Proof.
  unfold aggregate. intros Hagg.
  destruct (fold_insights _ startDateStr endDate [] data) as [fd|] eqn:Hfold; [|done].
  injection Hagg as <-.
  destruct (fold_insights_inv _ _ _ _ _ _ Hfold) as (Hfresh & _); [constructor.. |].
  rewrite Forall_forall in Hfresh.
  assert (Hid : forall k g, In (k, g) fd -> Funnel.funnel_id (finalize g) = k).
  { intros k g Hkg. destruct (finalize_totals g) as (-> & _).
    apply list_elem_of_In in Hkg. by destruct (Hfresh _ Hkg) as (? & _). }
  destruct (indexed_properties_spec fd) as [Hsorted Hidx].
  exists (map finalize (map snd (indexed_properties fd))),
         (map finalize (map snd (named_properties fd))),
         (map fst (indexed_properties fd)).
  split; [unfold Object_values; by rewrite map_app|].
  split; [|split; [done|]].
  - rewrite !map_map. apply map_ext_in. intros [i g] Hig. cbn [fst snd].
    destruct (Hidx i g Hig) as (k & Hkg & Hk).
    unfold index_of. by rewrite (Hid k g Hkg).
  - apply List.Forall_forall. intros f Hf. rewrite map_map in Hf.
    apply in_map_iff in Hf as ([k g] & <- & Hkg). cbn [snd].
    unfold named_properties in Hkg. apply List.filter_In in Hkg as [Hkg Hk].
    cbn [fst] in Hk. unfold index_of. rewrite (Hid k g Hkg).
    by destruct (array_index k).
Qed.

(** X12.  One record whose field does not parse makes the total of its
    accumulator NaN, whatever the other records hold; with NaN
    impressions link_ctr stays absent, and with NaN reach frequency
    stays 0. *)
Theorem one_bad_value_makes_the_total_NaN (campaigns : list Campaign.t)
  (data : list Insight.t) (startDateStr endDate : jsstring)
  (funnels : list Funnel.t) (f : Funnel.t) (i : Insight.t) :
  aggregate campaigns data startDateStr endDate = Returned funnels ->
  In f funnels ->
  In i (group (build_campaign_map campaigns) (Funnel.funnel_id f) data) ->
  (spend_of i = NaN -> Funnel.amount_spent f = NaN)
  /\ (impressions_of i = NaN ->
      Funnel.impressions f = NaN /\ Funnel.link_ctr f = None)
  /\ (reach_of i = NaN ->
      Funnel.reach f = NaN /\ Funnel.frequency f = zero)
  /\ (clicks_of i = NaN -> Funnel.ads_link_clicks f = NaN).
Proof.
  intros Hagg Hf Hi.
  pose proof (aggregate_sums _ _ _ _ _ f Hagg Hf) as Hsums.
  unfold sums_of in Hsums. cbn [fst snd] in Hsums.
  destruct Hsums as (_ & Hs & Him & Hr & Hc).
  destruct (aggregate_members _ _ _ _ _ f Hagg Hf) as (g & Hg & Hfreq & Hctr).
  assert (Hfin_f : Funnel.frequency f
                   = if gt (Funnel.reach f) zero
                     then div (Funnel.impressions f) (Funnel.reach f) else zero).
  { rewrite Hg, finalize_frequency, Hfreq.
    by destruct (finalize_totals g) as (_ & _ & -> & -> & _). }
  assert (Hfin_c : Funnel.link_ctr f
                   = if gt (Funnel.impressions f) zero
                     then Some (mul (div (Funnel.ads_link_clicks f)
                                         (Funnel.impressions f)) (of_Z 100))
                     else None).
  { rewrite Hg, finalize_link_ctr, Hctr.
    by destruct (finalize_totals g) as (_ & _ & -> & _ & ->). }
  split; [|split; [|split]]; intros Hbad.
  - rewrite Hs. by apply (running_total_NaN _ _ i).
  - split.
    + rewrite Him. by apply (running_total_NaN _ _ i).
    + rewrite Hfin_c, Him, (running_total_NaN _ _ i) by done. done.
  - split.
    + rewrite Hr. by apply (running_total_NaN _ _ i).
    + rewrite Hfin_f, Hr, (running_total_NaN _ _ i) by done. done.
  - rewrite Hc. by apply (running_total_NaN _ _ i).
Qed.

(** X13.  An accumulator whose records carry no spend, impressions,
    reach or clicks is still returned, with the four totals and the
    frequency equal to 0 and without link_ctr. *)
Theorem records_without_metrics_give_zeros (campaigns : list Campaign.t)
  (data : list Insight.t) (startDateStr endDate : jsstring)
  (funnels : list Funnel.t) (f : Funnel.t) :
  aggregate campaigns data startDateStr endDate = Returned funnels ->
  In f funnels ->
  (forall i,
      In i (group (build_campaign_map campaigns) (Funnel.funnel_id f) data) ->
      ToBoolean (Insight.spend i) = false
      /\ ToBoolean (Insight.impressions i) = false
      /\ ToBoolean (Insight.reach i) = false
      /\ ToBoolean (Insight.clicks i) = false) ->
  Funnel.amount_spent f = zero
  /\ Funnel.impressions f = zero
  /\ Funnel.reach f = zero
  /\ Funnel.ads_link_clicks f = zero
  /\ Funnel.frequency f = zero
  /\ Funnel.link_ctr f = None.
Proof.
  intros Hagg Hf Hnone.
  pose proof (aggregate_sums _ _ _ _ _ f Hagg Hf) as Hsums.
  unfold sums_of in Hsums. cbn [fst snd] in Hsums.
  destruct Hsums as (_ & Hs & Him & Hr & Hc).
  destruct (aggregate_members _ _ _ _ _ f Hagg Hf) as (g & Hg & Hfreq & Hctr).
  assert (E1 : Funnel.amount_spent f = zero).
  { rewrite Hs. apply running_total_zero. intros i Hi.
    destruct (Hnone i Hi) as (Hv & _). by destruct (falsy_reads_zero _ Hv). }
  assert (E2 : Funnel.impressions f = zero).
  { rewrite Him. apply running_total_zero. intros i Hi.
    destruct (Hnone i Hi) as (_ & Hv & _). by destruct (falsy_reads_zero _ Hv). }
  assert (E3 : Funnel.reach f = zero).
  { rewrite Hr. apply running_total_zero. intros i Hi.
    destruct (Hnone i Hi) as (_ & _ & Hv & _). by destruct (falsy_reads_zero _ Hv). }
  assert (E4 : Funnel.ads_link_clicks f = zero).
  { rewrite Hc. apply running_total_zero. intros i Hi.
    destruct (Hnone i Hi) as (_ & _ & _ & Hv). by destruct (falsy_reads_zero _ Hv). }
  repeat (split; [done|]).
  destruct (finalize_totals g) as (_ & _ & Hgi & Hgr & _).
  rewrite <- Hg in Hgi, Hgr. split.
  - rewrite Hg, finalize_frequency, <- Hgr, E3, Hfreq. done.
  - rewrite Hg, finalize_link_ctr, <- Hgi, E2, Hctr. done.
Qed.

(** X14.  The three counts are read with [parseInt]: of a value that
    starts with digits only the leading digits count, whatever follows
    them (a thousands separator, a decimal point, a unit). *)
Theorem counts_stop_at_the_first_non_digit (i : Insight.t)
  (ds rest : jsstring) (c : N) :
  ds <> [] -> forallb is_digit ds = true -> is_digit c = false ->
  (ds = js "0" -> c <> 120%N /\ c <> 88%N) ->
  (Insight.impressions i = JStr (ds ++ c :: rest) ->
   impressions_of i = of_Z (digits_value ds))
  /\ (Insight.reach i = JStr (ds ++ c :: rest) ->
      reach_of i = of_Z (digits_value ds))
  /\ (Insight.clicks i = JStr (ds ++ c :: rest) ->
      clicks_of i = of_Z (digits_value ds)).
Proof.
  intros Hne Hds Hc Hx.
  assert (Hread : forall v, v = JStr (ds ++ c :: rest) ->
            parseInt (or_else v (JNum zero)) = of_Z (digits_value ds)).
  { intros v ->. unfold or_else.
    assert (ToBoolean (JStr (ds ++ c :: rest)) = true) as -> by (by destruct ds).
    unfold parseInt. cbn [ToString]. by apply parseInt_leading_digits. }
  unfold impressions_of, reach_of, clicks_of. repeat split; apply Hread.
Qed.

End Accumulators.

(** ** Fetching and saving *)

Lemma upsert_In (row r : Funnel.t) (t : table) :
  In r (upsert row t) -> r = row \/ In r t.
Proof.
  induction t as [|x t IH]; cbn.
  - intros [<- | []]. by left.
  - case_bool_decide; cbn.
    + intros [<- | Hin]; [by left | by right; right].
    + intros [<- | Hin]; [by right; left|].
      destruct (IH Hin); [by left | by right; right].
Qed.

Section Saving.
Context `{Engine} `{Services}.

(** X8.  One record whose name is neither absent nor a string makes
    [campaignName.match] throw: the aggregation of the whole reply is
    abandoned and the fetch returns the empty array, so the account's
    other records are lost as well. *)
Theorem record_without_string_name_drops_the_account (adAccountId : jsstring)
  (st : state) (campaigns : list Campaign.t) (campaignData : list Insight.t)
  (w1 w2 : World) (insight : Insight.t) :
  get_campaigns adAccountId (world st) = (Resolved (Some campaigns), w1) ->
  get_insights adAccountId (window (world st)) w1
  = (Resolved (Some campaignData), w2) ->
  In insight campaignData ->
  ~ has_name (build_campaign_map campaigns) insight ->
  aggregate campaigns campaignData (fst (window (world st))) (snd (window (world st)))
  = Thrown TypeError
  /\ fetchFacebookAdData adAccountId st
     = (Returned [], {| world := w2; rows := rows st |}).
Proof.
  intros Hc Hi Hin Hbad.
  assert (Hagg : aggregate campaigns campaignData
                   (fst (window (world st))) (snd (window (world st)))
                 = Thrown TypeError).
  { unfold aggregate. by rewrite (fold_insights_throws _ _ _ _ _ insight). }
  split; [done|]. rewrite fetch_eq. unfold fetch_result. by rewrite Hc, Hi, Hagg.
Qed.

Lemma save_one_error (f : Funnel.t) (st : state) :
  fst (send_upsert (Funnel.set_is_current_week f true) (world st)) = ErrorReturned ->
  save_one f st
  = (Returned tt,
     {| world := snd (send_upsert (Funnel.set_is_current_week f true) (world st));
        rows := rows st |}).
Proof.
  unfold save_one, bind, on_world.
  destruct (send_upsert _ (world st)) as [r w]. cbn. by intros ->.
Qed.

Lemma save_one_thrown (f : Funnel.t) (st : state) :
  fst (send_upsert (Funnel.set_is_current_week f true) (world st)) = WriteThrown ->
  save_one f st
  = (Thrown RequestFailed,
     {| world := snd (send_upsert (Funnel.set_is_current_week f true) (world st));
        rows := rows st |}).
Proof.
  unfold save_one, bind, on_world.
  destruct (send_upsert _ (world st)) as [r w]. cbn. by intros ->.
Qed.

(** X15.  A write that the store answers with an error is only logged:
    the row is not written and the loop goes on with the remaining
    accumulators of the batch. *)
Theorem write_error_does_not_stop_the_batch (funnelData : Funnel.t)
  (rest : list Funnel.t) (st : state) :
  fst (send_upsert (Funnel.set_is_current_week funnelData true) (world st))
  = ErrorReturned ->
  saveFunnelData (funnelData :: rest) st
  = saveFunnelData rest
      {| world := snd (send_upsert (Funnel.set_is_current_week funnelData true)
                                   (world st));
         rows := rows st |}.
Proof.
  intros Herr. unfold saveFunnelData at 1. unfold try_catch.
  cbn [save_each]. unfold bind. rewrite save_one_error by done.
  by destruct rest.
Qed.

(** X16.  A write whose call rejects ends the batch: the accumulators
    after it are not sent, and [saveFunnelData] still returns
    normally. *)
Theorem thrown_write_abandons_the_batch (funnelData : Funnel.t)
  (rest : list Funnel.t) (st : state) :
  fst (send_upsert (Funnel.set_is_current_week funnelData true) (world st))
  = WriteThrown ->
  saveFunnelData (funnelData :: rest) st
  = (Returned tt,
     {| world := snd (send_upsert (Funnel.set_is_current_week funnelData true)
                                  (world st));
        rows := rows st |}).
Proof.
  intros Herr. unfold saveFunnelData, try_catch.
  cbn [save_each]. unfold bind. by rewrite save_one_thrown.
Qed.

Lemma save_each_rows (batch : list Funnel.t) (st st' : state) (o : outcome unit) :
  save_each batch st = (o, st') ->
  forall r, In r (rows st') ->
    In r (rows st)
    \/ exists f, In f batch /\ r = Funnel.set_is_current_week f true.
Proof.
  revert st. induction batch as [|f batch IH]; intros st Hsave r Hr.
  - injection Hsave as _ <-. by left.
  - cbn [save_each] in Hsave. unfold bind in Hsave.
    destruct (save_one f st) as [[[]|e] st1] eqn:Hone.
    + assert (Hst1 : forall r, In r (rows st1) ->
                In r (rows st) \/ r = Funnel.set_is_current_week f true).
      { unfold save_one, bind, on_world in Hone.
        destruct (send_upsert _ (world st)) as [[| |] w]; cbn in Hone;
          try discriminate; inversion Hone; subst st1; cbn [rows];
          intros r0 Hr0; try (by left).
        apply upsert_In in Hr0 as [-> | ?]; [by right | by left]. }
      destruct (IH st1 Hsave r Hr) as [Hin | (f' & Hf' & ->)].
      * destruct (Hst1 r Hin) as [? | ->]; [by left|].
        right. exists f. split; [by left | done].
      * right. exists f'. split; [by right | done].
    + injection Hsave as _ <-.
      unfold save_one, bind, on_world in Hone.
      destruct (send_upsert _ (world st)) as [[| |] w]; cbn in Hone;
        try discriminate. inversion Hone; subst st1. by left.
Qed.

Lemma saveFunnelData_rows (batch : list Funnel.t) (st st' : state)
  (o : outcome unit) (r : Funnel.t) :
  saveFunnelData batch st = (o, st') -> In r (rows st') ->
  o = Returned tt
  /\ (In r (rows st)
      \/ exists f, In f batch /\ r = Funnel.set_is_current_week f true).
Proof.
  unfold saveFunnelData. destruct batch as [|f batch].
  - intros [= <- <-] Hr. split; [done | by left].
  - unfold try_catch. destruct (save_each (f :: batch) st) as [[[]|e] st1] eqn:Hsave;
      intros [= <- <-] Hr; (split; [done|]);
      apply (save_each_rows _ _ _ _ Hsave r Hr).
Qed.

(** X17.  [saveFunnelData] never throws, and every row it leaves in the
    table was there before or is an accumulator of the batch stamped
    with is_current_week = true (the table being the modelled one). *)
Theorem saved_rows_are_stamped (batch : list Funnel.t) (st st' : state)
  (o : outcome unit) (r : Funnel.t) :
  saveFunnelData batch st = (o, st') ->
  In r (rows st') ->
  o = Returned tt
  /\ (In r (rows st)
      \/ (Funnel.is_current_week r = Some true
          /\ exists f, In f batch /\ r = Funnel.set_is_current_week f true)).
Proof.
  intros Hsave Hr.
  destruct (saveFunnelData_rows _ _ _ _ _ Hsave Hr) as (-> & [? | (f & ? & ->)]);
    (split; [done|]); [by left|].
  right. split; [done | by exists f].
Qed.

Lemma fetch_rows (adAccountId : jsstring) (st st' : state)
  (funnels : list Funnel.t) :
  fetchFacebookAdData adAccountId st = (Returned funnels, st') ->
  rows st' = rows st
  /\ forall f, In f funnels ->
       Funnel.campaigns f = None
       /\ Funnel.funnel_name f = funnelName (Funnel.funnel_id f).
Proof.
  rewrite fetch_eq. unfold fetch_result.
  destruct (get_campaigns adAccountId (world st)) as [[|[campaigns|]] w1];
    try (intros [= <- <-]; by split).
  destruct (get_insights adAccountId (window (world st)) w1) as [[|[data|]] w2];
    try (intros [= <- <-]; by split).
  destruct (aggregate campaigns data _ _) as [out|] eqn:Hagg;
    intros [= <- <-]; (split; [done|]); [|done].
  intros f Hf.
  destruct (aggregate_properties _ _ _ _ _ f Hagg Hf)
    as (k & g & -> & (Hname & _) & (Hid & _)).
  cbn [fst snd] in *.
  destruct (finalize_labels g) as (-> & _ & _ & _ & ->).
  destruct (finalize_totals g) as (-> & _).
  by rewrite Hname, Hid.
Qed.

Lemma process_account_rows (account : Account.t) (st st' : state)
  (o : outcome unit) (r : Funnel.t) :
  process_account account st = (o, st') -> In r (rows st') ->
  In r (rows st) \/ written_row r.
Proof.
  unfold process_account. destruct (is_inactive account).
  { intros [= <- <-]. by left. }
  destruct (Account.id account) as [| | | |id]; try (intros [= <- <-]; by left).
  unfold bind.
  destruct (fetchFacebookAdData _ st) as [[funnels|e] st1] eqn:Hfetch.
  - destruct (fetch_rows _ _ _ _ Hfetch) as [Hrows Hbatch].
    intros Hsave Hr. rewrite <- Hrows.
    destruct (saveFunnelData_rows _ _ _ _ _ Hsave Hr) as (_ & [? | (f & Hf & ->)]);
      [by left|].
    right. destruct (Hbatch f Hf) as [Hc Hn]. by repeat split.
  - rewrite fetch_eq in Hfetch. done.
Qed.

Lemma process_accounts_rows (adAccounts : list Account.t) (st st' : state)
  (o : outcome unit) (r : Funnel.t) :
  process_accounts adAccounts st = (o, st') -> In r (rows st') ->
  In r (rows st) \/ written_row r.
Proof.
  revert st. induction adAccounts as [|account rest IH]; intros st.
  - intros [= <- <-]. by left.
  - cbn [process_accounts]. unfold bind.
    destruct (process_account account st) as [[[]|e] st1] eqn:Hone.
    + intros Hrest Hr. destruct (IH st1 Hrest Hr) as [Hin | Hw]; [|by right].
      apply (process_account_rows _ _ _ _ _ Hone Hin).
    + intros [= <- <-] Hr. apply (process_account_rows _ _ _ _ _ Hone Hr).
Qed.

(** X18.  Whatever the services answer during a cycle, every row of the
    table after it was there before the cycle or is a row the cycle
    wrote: stamped with is_current_week = true, without the campaigns
    array, and named "Funnel #" followed by its funnel id. *)
Theorem cycle_only_adds_stamped_rows (st st' : state) (o : outcome unit)
  (r : Funnel.t) :
  processFacebookData st = (o, st') -> In r (rows st') ->
  In r (rows st) \/ written_row r.
Proof.
  unfold processFacebookData, try_catch, bind. rewrite getAdAccounts_eq.
  destruct (listed_accounts _) as [|account rest].
  - intros [= <- <-]. by left.
  - destruct (process_accounts (account :: rest) _) as [[[]|e] st1] eqn:Hloop;
      intros [= <- <-] Hr;
      by destruct (process_accounts_rows _ _ _ _ _ Hloop Hr); [left | right].
Qed.


Lemma saveFunnelData_total (batch : list Funnel.t) (st : state) :
  exists st', saveFunnelData batch st = (Returned tt, st').
Proof.
  unfold saveFunnelData. destruct batch as [|f batch]; [by eexists|].
  unfold try_catch, ret.
  destruct (save_each (f :: batch) st) as [[[]|e] st1]; by eexists.
Qed.

(** X20.  Only an id that is not a string can stop the loop over the
    accounts: when every listed account is inactive or has a string id,
    the loop visits all of them and returns normally, whatever the
    requests and the writes answer. *)
Theorem only_a_malformed_id_stops_the_loop (adAccounts : list Account.t)
  (st : state) :
  Forall (fun account =>
            is_inactive account = true
            \/ exists id, Account.id account = JStr id) adAccounts ->
  exists st', process_accounts adAccounts st = (Returned tt, st').
Proof.
  intros Hall. revert st.
  induction Hall as [|account rest Hone _ IH]; intros st; [by eexists|].
  cbn [process_accounts]. unfold bind.
  assert (Hret : exists st1, process_account account st = (Returned tt, st1)).
  { unfold process_account. destruct (is_inactive account) eqn:Hact; [by eexists|].
    destruct Hone as [? | [id ->]]; [done|].
    unfold bind. rewrite fetch_eq. apply saveFunnelData_total. }
  destruct Hret as [st1 ->]. apply IH.
Qed.

End Saving.

(** ** The further runs *)

Import Cases.

(** A dormant account between two active ones. *)
Lemma inactive_accounts_witness :
  process_accounts (H := engine) (H0 := services) [account; dormant; account] (start both)
  = process_accounts (H := engine) (H0 := services) [account; account] (start both).
Proof.
  apply (inactive_accounts_are_skipped (H := engine) (H0 := services)
           [account] [account] dormant (start both)).
  reflexivity.
Defined.

(** The listing request is rejected. *)
Lemma empty_listing_witness :
  processFacebookData (H := engine) (H0 := services) (start unreachable)
  = (Returned tt, start unreachable).
Proof.
  apply (cycle_ends_after_empty_listing (H := engine) (H0 := services)
           (start unreachable)).
  reflexivity.
Defined.

(** The account without id comes first: the active account after it is
    not processed and the table stays empty. *)
Lemma account_without_id_witness :
  processFacebookData (H := engine) (H0 := services) (start broken_listing)
  = (Returned tt, start broken_listing).
Proof.
  apply (account_without_id_ends_the_cycle (H := engine) (H0 := services)
           nameless [account] (start broken_listing)).
  - reflexivity.
  - intros id. discriminate.
  - reflexivity.
Defined.

(** "act_1" and "1" are both requested as "act_1". *)
Lemma one_prefix_witness :
  request_id (js "act_1") = js "act_1" /\ request_id (js "1") = js "act_1".
Proof.
  split.
  - apply (account_is_requested_with_one_prefix (H := engine) (H0 := services)
             account (js "act_1") (js "1") (start both)).
    + reflexivity.
    + reflexivity.
    + left. reflexivity.
  - apply (account_is_requested_with_one_prefix (H := engine) (H0 := services)
             unprefixed (js "1") (js "1") (start both)).
    + reflexivity.
    + reflexivity.
    + right. split; [reflexivity|]. intros pre post Heq.
      apply (f_equal (@length N)) in Heq. rewrite !length_app in Heq.
      cbn in Heq. lia.
Defined.

(** The record without a name gets the name of campaign 11. *)
Lemma listed_name_witness :
  campaignName (H := engine) (build_campaign_map (H := engine) [listed]) anonymous
  = Value (JStr (js "Funnel 1 - Top")).
Proof.
  apply (missing_name_is_taken_from_the_campaign_list (H := engine)
           [] [] listed anonymous).
  - reflexivity.
  - reflexivity.
  - discriminate.
  - intros c [].
Defined.

(** Campaign 99 is not listed. *)
Lemma unlisted_campaign_witness :
  campaignName (H := engine) (build_campaign_map (H := engine) [listed]) stray
  = Value (JStr (js "Unknown Campaign"))
  /\ funnelId (resolved_name (H := engine) (build_campaign_map (H := engine) [listed]) stray)
     = js "unknown".
Proof.
  apply (unlisted_campaign_is_unknown (H := engine) [listed] stray).
  - reflexivity.
  - intros c [<- | []]. discriminate.
  - intros Hin. vm_compute in Hin.
    repeat (destruct Hin as [Hin | Hin]; [discriminate Hin|]). exact Hin.
Defined.

(** The two named records of the end-to-end scenario, with and without
    the campaign list. *)
Lemma named_records_witness :
  aggregate (H := engine) [] [top; mid] (js "2024-03-01") (js "2024-03-08")
  = aggregate (H := engine) [listed] [top; mid] (js "2024-03-01") (js "2024-03-08").
Proof.
  apply (named_records_ignore_the_campaign_list (H := engine) [] [listed] [top; mid]).
  intros i [<- | [<- | []]]; reflexivity.
Defined.

(** The record named [true] takes the record of funnel 1 with it. *)
Lemma dropped_account_witness :
  fetchFacebookAdData (H := engine) (H0 := services) (js "act_1") (start mixed)
  = (Returned [], start mixed).
Proof.
  apply (record_without_string_name_drops_the_account (H := engine) (H0 := services)
           (js "act_1") (start mixed) [] [top; misnamed] mixed mixed misnamed).
  - reflexivity.
  - reflexivity.
  - right. left. reflexivity.
  - intros [name Hname]. vm_compute in Hname. discriminate Hname.
Defined.

(** The accumulator of the end-to-end scenario. *)
Lemma labelled_accumulator_witness :
  exists f,
    aggregate (H := engine) [] [top; mid] (js "2024-03-01") (js "2024-03-08")
    = Returned [f]
    /\ Funnel.funnel_name f = js "Funnel #1"
    /\ Funnel.start_date f = js "2024-03-01"
    /\ Funnel.end_date f = js "2024-03-08"
    /\ Funnel.campaigns f = None.
Proof.
  eexists. split; [vm_compute; reflexivity|].
  lazymatch goal with
  | |- Funnel.funnel_name ?f = _ /\ _ =>
      destruct (accumulators_are_labelled (H := engine) [] [top; mid]
                  (js "2024-03-01") (js "2024-03-08") [f] f)
        as (Hn & Hs & He & Hc & _)
  end; [vm_compute; reflexivity | left; reflexivity|].
  split; [exact Hn|]. split; [exact Hs|]. split; [exact He | exact Hc].
Defined.

(** Records of funnel 7, of no funnel and of funnel 1, in this order,
    come back as 1, 7, unknown. *)
Lemma key_order_witness :
  exists funnels indexed named indices,
    aggregate (H := engine) [] [plain; brand; top] (js "2024-03-01") (js "2024-03-08")
    = Returned funnels
    /\ map Funnel.funnel_id funnels = [js "1"; js "7"; js "unknown"]
    /\ funnels = indexed ++ named
    /\ map index_of indexed = map Some indices
    /\ StronglySorted Z.le indices
    /\ Forall (fun f => index_of f = None) named.
Proof.
  eexists.
  assert (Hagg : aggregate (H := engine) [] [plain; brand; top]
                   (js "2024-03-01") (js "2024-03-08") = Returned _)
    by (vm_compute; reflexivity).
  destruct (accumulators_come_in_key_order (H := engine) [] [plain; brand; top]
              (js "2024-03-01") (js "2024-03-08") _ Hagg)
    as (indexed & named & indices & Happ & Hidx & Hsorted & Hnamed).
  exists indexed, named, indices.
  split; [exact Hagg|]. split; [reflexivity|].
  split; [exact Happ|]. split; [exact Hidx|]. split; [exact Hsorted | exact Hnamed].
Defined.

(** The spend "abc" next to the spend "50". *)
Lemma bad_value_witness :
  exists f,
    aggregate (H := engine) [] [garbled; mid] (js "2024-03-01") (js "2024-03-08")
    = Returned [f]
    /\ Funnel.amount_spent f = NaN.
Proof.
  eexists. split; [vm_compute; reflexivity|].
  lazymatch goal with
  | |- Funnel.amount_spent ?f = _ =>
      destruct (one_bad_value_makes_the_total_NaN (H := engine) [] [garbled; mid]
                  (js "2024-03-01") (js "2024-03-08") [f] f garbled)
        as (Hspend & _)
  end; [vm_compute; reflexivity | left; reflexivity | left; reflexivity|].
  apply Hspend. vm_compute. reflexivity.
Defined.

(** A record of funnel 5 without any metric. *)
Lemma no_metrics_witness :
  exists f,
    aggregate (H := engine) [] [silent] (js "2024-03-01") (js "2024-03-08")
    = Returned [f]
    /\ Funnel.amount_spent f = zero
    /\ Funnel.impressions f = zero
    /\ Funnel.frequency f = zero
    /\ Funnel.link_ctr f = None.
Proof.
  eexists. split; [vm_compute; reflexivity|].
  lazymatch goal with
  | |- Funnel.amount_spent ?f = _ /\ _ =>
      destruct (records_without_metrics_give_zeros (H := engine) [] [silent]
                  (js "2024-03-01") (js "2024-03-08") [f] f)
        as (Hs & Hi & _ & _ & Hf & Hc)
  end; [vm_compute; reflexivity | left; reflexivity | |].
  - intros i [<- | []]. repeat split; reflexivity.
  - split; [exact Hs|]. split; [exact Hi|]. split; [exact Hf | exact Hc].
Defined.

(** The impressions "1,000" count as 1. *)
Lemma leading_digits_witness :
  impressions_of (H := engine) thousands = of_Z 1.
Proof.
  apply (proj1 (counts_stop_at_the_first_non_digit (H := engine) thousands
                  (js "1") (js "000") 44%N
                  ltac:(discriminate) eq_refl eq_refl
                  ltac:(intros; split; discriminate))).
  reflexivity.
Defined.

(** Two accumulators and a store that answers with an error. *)
Lemma write_error_witness :
  saveFunnelData (H0 := services) [early; other] (start refusing)
  = saveFunnelData (H0 := services) [other] (start refusing).
Proof.
  apply (write_error_does_not_stop_the_batch (H0 := services)
           early [other] (start refusing)).
  reflexivity.
Defined.

(** Two accumulators and a store whose call rejects. *)
Lemma thrown_write_witness :
  saveFunnelData (H0 := services) [early; other] (start failing)
  = (Returned tt, start failing).
Proof.
  apply (thrown_write_abandons_the_batch (H0 := services)
           early [other] (start failing)).
  reflexivity.
Defined.

(** Two accepted writes into a table that holds an unstamped row. *)
Lemma saved_rows_witness :
  exists st',
    saveFunnelData (H0 := services) [early; other] (state_of both [late])
    = (Returned tt, st')
    /\ forall r, In r (rows st') ->
         r = late \/ Funnel.is_current_week r = Some true.
Proof.
  eexists. split; [vm_compute; reflexivity|].
  intros r Hr.
  destruct (saved_rows_are_stamped (H0 := services) [early; other]
              (state_of both [late]) _ (Returned tt) r eq_refl Hr)
    as (_ & [[<- | []] | (Hstamp & _)]).
  - left. reflexivity.
  - right. exact Hstamp.
Defined.

(** The cycle of the end-to-end scenario on an empty table. *)
Lemma cycle_rows_witness :
  exists st',
    processFacebookData (H := engine) (H0 := services) (start both)
    = (Returned tt, st')
    /\ rows st' <> []
    /\ forall r, In r (rows st') -> written_row r.
Proof.
  eexists. split; [vm_compute; reflexivity|].
  split; [discriminate|].
  intros r Hr.
  destruct (cycle_only_adds_stamped_rows (H := engine) (H0 := services)
              (start both) _ (Returned tt) r eq_refl Hr) as [[] | Hw].
  exact Hw.
Defined.


(** Three accounts with string ids and a store whose calls reject. *)
Lemma loop_witness :
  exists st',
    process_accounts (H := engine) (H0 := services)
      [account; dormant; unprefixed] (start failing)
    = (Returned tt, st').
Proof.
  apply (only_a_malformed_id_stops_the_loop (H := engine) (H0 := services)
           [account; dormant; unprefixed] (start failing)).
  constructor; [right; eexists; reflexivity|].
  constructor; [left; reflexivity|].
  constructor; [right; eexists; reflexivity|].
  constructor.
Defined.
